(** * Q&A frontend: answer-fetch client, persisted-value hook and
      application view state, embedded from the JavaScript sources.

    - [JS]: the fragment of JavaScript values the code manipulates
      (strings as lists of UTF-16 code units, JSON values, thrown values).
    - [Api]: [services/api.js] ([toUserFriendlyError], [askQuestionReal],
      [askQuestionMock], [askQuestion]).
    - [Hook]: [hooks/useLocalStorage.js].
    - [App]: the state transitions of the [App] component. *)

From Stdlib Require Import List Ascii String NArith ZArith Bool Lia DecimalString.
From stdpp Require Import base option list gmap strings.
Import ListNotations.

Open Scope N_scope.

(* ===================================================================== *)
(** ** JavaScript values *)
(* ===================================================================== *)

Module JS.

(** A JavaScript string is a sequence of UTF-16 code units. *)
Definition code_unit := N.
Definition jsstring := list N.

(** ASCII literal to JavaScript string. *)
Definition lit (s : string) : jsstring :=
  List.map N_of_ascii (list_ascii_of_string s).

(** The one-character string holding a double quote (U+0022). *)
Definition dquote : jsstring := [34].

Definition str_eqb (a b : jsstring) : bool := bool_decide (a = b).

(** [WhiteSpace] and [LineTerminator] code units, the ones stripped by
    [String.prototype.trim]. *)
Definition isWhiteSpace (c : code_unit) : bool :=
  (c =? 9) || (c =? 10) || (c =? 11) || (c =? 12) || (c =? 13) || (c =? 32)
  || (c =? 160) || (c =? 5760)
  || ((8192 <=? c) && (c <=? 8202))
  || (c =? 8232) || (c =? 8233) || (c =? 8239) || (c =? 8287)
  || (c =? 12288) || (c =? 65279).

Fixpoint trimStart (s : jsstring) : jsstring :=
  match s with
  | c :: rest => if isWhiteSpace c then trimStart rest else s
  | [] => []
  end.

Definition trimEnd (s : jsstring) : jsstring := rev (trimStart (rev s)).

(** [s.trim()] *)
Definition trim (s : jsstring) : jsstring := trimEnd (trimStart s).

Fixpoint startsWith (p s : jsstring) : bool :=
  match p, s with
  | [], _ => true
  | _ :: _, [] => false
  | a :: p', b :: s' => (a =? b) && startsWith p' s'
  end.

(** [hay.includes(needle)] *)
Fixpoint includes (needle hay : jsstring) : bool :=
  startsWith needle hay
  || match hay with
     | [] => false
     | _ :: rest => includes needle rest
     end.

(** Case folding of a regular expression with the [i] flag and without
    the [u] flag, restricted to what an ASCII-letter pattern can match:
    a code unit above 127 never canonicalises to an ASCII letter. *)
Definition foldCase (c : code_unit) : code_unit :=
  if (65 <=? c) && (c <=? 90) then c + 32 else c.

(** [/needle/i.test(hay)] for a pattern made of ASCII letters only. *)
Definition includes_ci (needle hay : jsstring) : bool :=
  includes (List.map foldCase needle) (List.map foldCase hay).

(** [`${n}`] for a non-negative integer. *)
Definition decimal (n : N) : jsstring :=
  lit (NilZero.string_of_uint (N.to_uint n)).

(** [s.replace(/\/*$/, '')]: drop the trailing slashes. *)
Fixpoint dropSlashes (s : jsstring) : jsstring :=
  match s with
  | c :: rest => if c =? 47 then dropSlashes rest else s
  | [] => []
  end.

Definition stripTrailingSlashes (s : jsstring) : jsstring :=
  rev (dropSlashes (rev s)).

(** Values: what [JSON.parse] can produce, plus [undefined] and [NaN].
    Numbers are kept as integers: only their type and their truthiness
    are ever inspected. *)
#[warnings="-register-all"]
Inductive value : Type :=
| VUndefined
| VNull
| VBool (b : bool)
| VNumber (z : Z)
| VNaN
| VString (s : jsstring)
| VArray (items : list value)
| VObject (fields : list (jsstring * value)).

Inductive type_tag := TyUndefined | TyObject | TyBoolean | TyNumber | TyString.

#[export] Instance type_tag_eq_dec : EqDecision type_tag.
Proof. solve_decision. Defined.

(** [typeof v] *)
Definition typeof (v : value) : type_tag :=
  match v with
  | VUndefined => TyUndefined
  | VNull | VArray _ | VObject _ => TyObject
  | VBool _ => TyBoolean
  | VNumber _ | VNaN => TyNumber
  | VString _ => TyString
  end.

(** [!!v] *)
Definition truthy (v : value) : bool :=
  match v with
  | VUndefined | VNull | VNaN => false
  | VBool b => b
  | VNumber z => negb (z =? 0)%Z
  | VString s => negb (str_eqb s [])
  | VArray _ | VObject _ => true
  end.

(** Own property of an object built by [JSON.parse]: a later duplicate
    key overwrites an earlier one. *)
Fixpoint lookupField (k : jsstring) (fields : list (jsstring * value)) : option value :=
  match fields with
  | [] => None
  | (k', v) :: rest =>
      match lookupField k rest with
      | Some w => Some w
      | None => if str_eqb k k' then Some v else None
      end
  end.

(** [v?.k] for a key that no primitive or array carries ([message],
    [error], [answer], [name]). *)
Definition getProp (v : value) (k : jsstring) : value :=
  match v with
  | VObject fields => default VUndefined (lookupField k fields)
  | _ => VUndefined
  end.

(** ['k' in v], guarded by [typeof v === 'object'] and [v] truthy. *)
Definition hasProp (v : value) (k : jsstring) : bool :=
  match v with
  | VObject fields => bool_decide (is_Some (lookupField k fields))
  | _ => false
  end.

Inductive error_class := ClsError | ClsTypeError | ClsSyntaxError | ClsDOMException.

#[export] Instance error_class_eq_dec : EqDecision error_class.
Proof. solve_decision. Defined.

(** What a [throw] or a rejected promise carries: an error object
    (with its constructor, [name] and [message]) or any other value. *)
Inductive thrown : Type :=
| ThrownError (cls : error_class) (name message : jsstring)
| ThrownValue (v : value).

(** [new Error(message)] *)
Definition mkError (message : jsstring) : thrown :=
  ThrownError ClsError (lit "Error") message.

(** [err.message] when it is a string. *)
Definition messageOf (err : thrown) : option jsstring :=
  match err with
  | ThrownError _ _ m => Some m
  | ThrownValue v =>
      match getProp v (lit "message") with
      | VString m => Some m
      | _ => None
      end
  end.

(** Settled state of a [Promise<string>]. *)
Inductive outcome : Type :=
| Resolved (s : jsstring)
| Rejected (err : thrown).

End JS.

Import JS.

(* ===================================================================== *)
(** ** services/api.js *)
(* ===================================================================== *)

Module Api.

(** [API_BASE = (process.env.REACT_APP_API_URL) || ''] *)
Definition API_BASE (REACT_APP_API_URL : option jsstring) : jsstring :=
  default [] REACT_APP_API_URL.

(** [isMock = !API_BASE] *)
Definition isMock (REACT_APP_API_URL : option jsstring) : bool :=
  str_eqb (API_BASE REACT_APP_API_URL) [].

Definition MSG_TIMEOUT : jsstring :=
  lit "Request timed out after 30 seconds. Please try again.".
Definition MSG_NETWORK : jsstring :=
  lit "Network error. Please check your connection and try again.".
Definition MSG_GENERIC : jsstring :=
  lit "Something went wrong while contacting the server. Please try again.".
Definition MSG_MALFORMED : jsstring :=
  lit "Malformed response: expected JSON with an " ++ dquote ++ lit "answer"
  ++ dquote ++ lit " string field.".
Definition MSG_INVALID : jsstring :=
  lit "Question must be a non-empty string.".

(** [/aborted|AbortError|timeout/i.test(message)] *)
Definition abortPattern (message : jsstring) : bool :=
  includes_ci (lit "aborted") message
  || includes_ci (lit "AbortError") message
  || includes_ci (lit "timeout") message.

(** [err && typeof err === 'object' && 'name' in err &&
     err.name === 'AbortError'] *)
Definition hasAbortName (err : thrown) : bool :=
  match err with
  | ThrownError _ name _ => str_eqb name (lit "AbortError")
  | ThrownValue v =>
      truthy v && bool_decide (typeof v = TyObject) && hasProp v (lit "name")
      && match getProp v (lit "name") with
         | VString n => str_eqb n (lit "AbortError")
         | _ => false
         end
  end.

(** [err instanceof TypeError] *)
Definition isTypeError (err : thrown) : bool :=
  match err with
  | ThrownError ClsTypeError _ _ => true
  | _ => false
  end.

Definition toUserFriendlyError (err : thrown) : thrown :=
  let message := default [] (messageOf err) in
  let isAbort := hasAbortName err || abortPattern message in
  if isAbort then mkError MSG_TIMEOUT
  else if isTypeError err then mkError MSG_NETWORK
  else mkError MSG_GENERIC.

(** The [Response] handed back by [fetch]: [body_json] and [body_text]
    are what [await res.json()] and [await res.text()] settle to, which
    is a parse error, or the [AbortError] of a read cut short by the
    timer, as well as a value. *)
Record response := {
  status : N;
  statusText : jsstring;
  content_type : option jsstring;      (* res.headers.get('content-type') *)
  body_json : thrown + value;
  body_text : thrown + jsstring;
}.

(** [res.ok]: the status is in the range 200-299. *)
Definition ok (res : response) : bool :=
  (200 <=? status res) && (status res <=? 299).

Record request := {
  req_url : jsstring;
  req_method : jsstring;
  req_headers : list (jsstring * jsstring);
  req_body : value;                    (* the value given to JSON.stringify *)
}.

(** How the [fetch] promise behaves: it settles [t] milliseconds after
    the call, or never does. *)
Inductive fetch_outcome :=
| FetchResolves (t : N) (res : response)
| FetchRejects (t : N) (err : thrown)
| FetchPending.

Definition network := request -> fetch_outcome.

(** [setTimeout(() => controller.abort(), 30_000)] *)
Definition TIMEOUT_MS : N := 30000.

(** What [fetch] rejects with once [controller.abort()] has run. *)
Definition abortError : thrown :=
  ThrownError ClsDOMException (lit "AbortError") (lit "signal is aborted without reason").

(** The timer fires, and [controller.abort()] runs, while [fetch] is
    still pending. *)
Definition timerFires (f : fetch_outcome) : bool :=
  match f with
  | FetchResolves t _ | FetchRejects t _ => TIMEOUT_MS <=? t
  | FetchPending => true
  end.

(** The promise [await fetch(url, {..., signal})] as seen by the caller. *)
Definition awaitFetch (f : fetch_outcome) : thrown + response :=
  if timerFires f then inl abortError
  else
    match f with
    | FetchResolves _ res => inr res
    | FetchRejects _ err => inl err
    | FetchPending => inl abortError
    end.

(** [(typeof v === 'string' && v)]: the string when it is a non-empty one. *)
Definition nonEmptyString (v : value) : option jsstring :=
  match v with
  | VString s => if str_eqb s [] then None else Some s
  | _ => None
  end.

(** The backend-provided message of a non-2xx response (lines 58-72). *)
Definition serverMessage (res : response) : jsstring :=
  let ct := default [] (content_type res) in
  if includes (lit "application/json") ct then
    match body_json res with
    | inr body =>
        match nonEmptyString (getProp body (lit "message")) with
        | Some m => m
        | None => default [] (nonEmptyString (getProp body (lit "error")))
        end
    | inl _ => []                     (* ignore parse errors *)
    end
  else
    match body_text res with
    | inr t => t
    | inl _ => []
    end.

(** [base + detail] (lines 73-74). *)
Definition httpErrorMessage (res : response) : jsstring :=
  let base := lit "Request failed: " ++ decimal (status res) ++ lit " " ++ statusText res in
  let detail :=
    if str_eqb (serverMessage res) [] then [] else lit " - " ++ serverMessage res in
  base ++ detail.

(** The statements after [await fetch] inside the [try] block: [inl] is
    a throw, [inr] the returned answer. *)
Definition handleResponse (res : response) : thrown + jsstring :=
  if negb (ok res) then inl (mkError (httpErrorMessage res))
  else
    match body_json res with
    | inl err => inl err
    | inr data =>
        if negb (truthy data) then inl (mkError MSG_MALFORMED)
        else
          match getProp data (lit "answer") with
          | VString answer => inr answer
          | _ => inl (mkError MSG_MALFORMED)
          end
    end.

Definition buildRequest (base question : jsstring) : request :=
  {| req_url := stripTrailingSlashes base ++ lit "/ask";
     req_method := lit "POST";
     req_headers := [(lit "Content-Type", lit "application/json")];
     req_body := VObject [(lit "question", VString question)] |}.

(** The whole [try] block of [askQuestionReal]. *)
Definition tryRequest (base : jsstring) (net : network) (question : jsstring)
  : thrown + jsstring :=
  match awaitFetch (net (buildRequest base question)) with
  | inl err => inl err
  | inr res => handleResponse res
  end.

Definition askQuestionReal (base : jsstring) (net : network) (question : jsstring)
  : outcome :=
  match tryRequest base net question with
  | inr answer => Resolved answer
  | inl err => Rejected (toUserFriendlyError err)   (* catch (err) *)
  end.

Definition mockAnswer (question : jsstring) : jsstring :=
  lit "This is a placeholder answer for: " ++ dquote ++ question ++ dquote
  ++ lit ". Integrate with your backend API to return real agent responses.".

Definition askQuestionMock (question : jsstring) : outcome :=
  Resolved (mockAnswer question).

Definition askQuestion (env : option jsstring) (net : network) (question : value)
  : outcome :=
  if negb (truthy question) || negb (bool_decide (typeof question = TyString))
  then Rejected (mkError MSG_INVALID)
  else
    match question with
    | VString q =>
        if isMock env then askQuestionMock q
        else askQuestionReal (API_BASE env) net q
    | _ => Rejected (mkError MSG_INVALID)   (* excluded by the typeof test *)
    end.

End Api.

(* ===================================================================== *)
(** ** hooks/useLocalStorage.js *)
(* ===================================================================== *)

Module Hook.

(** [window.localStorage]: the stored items, and whether [getItem] and
    [setItem] throw (storage disabled, quota exceeded, privacy mode). *)
Record localStorage := {
  items : gmap jsstring jsstring;
  getItem_throws : bool;
  setItem_throws : jsstring -> jsstring -> bool;
}.

Section useLocalStorage.
Context {V : Type} `{EqDecision V}.
(** [JSON.parse] and [JSON.stringify]; [None] when they throw. *)
Variable parse : jsstring -> option V.
Variable stringify : V -> option jsstring.
Variable key : jsstring.

(** The hook's React state together with the storage it writes to. *)
Record hook := { value : V; storage : localStorage }.

(** The lazy initialiser given to [useState] (lines 26-35). *)
Definition readInitial (initialValue : V) (ls : localStorage) : V :=
  if getItem_throws ls then initialValue
  else
    match items ls !! key with
    | None => initialValue                       (* raw == null *)
    | Some raw => default initialValue (parse raw)
    end.

(** The body of the persisting effect (lines 41-46). *)
Definition persist (v : V) (ls : localStorage) : localStorage :=
  match stringify v with
  | None => ls
  | Some serialized =>
      if setItem_throws ls key serialized then ls
      else {| items := <[key := serialized]> (items ls);
              getItem_throws := getItem_throws ls;
              setItem_throws := setItem_throws ls |}
  end.

(** First render followed by the first run of the effect. *)
Definition mount (initialValue : V) (ls : localStorage) : hook :=
  let v := readInitial initialValue ls in
  {| value := v; storage := persist v ls |}.

(** What the state setter of [useState] is called with. *)
Inductive action :=
| SetTo (v : V)
| SetBy (f : V -> V).

(** [setValue]: the next state is computed from the previous one; when
    it is the value already held, React bails out and the effect, whose
    dependencies are [key, value], does not run again. Values are
    compared structurally here. *)
Definition setValue (a : action) (h : hook) : hook :=
  let next := match a with SetTo v => v | SetBy f => f (value h) end in
  if decide (next = value h) then h
  else {| value := next; storage := persist next (storage h) |}.

(** The argument of [updateValue]: a function, whose call returns
    ([Some]) or throws ([None]), or any other value. *)
Inductive updater :=
| UpdaterFn (f : V -> option V)
| UpdaterValue (v : V).

(** The reducer built by [updateValue] (lines 55-63). *)
Definition applyUpdater (u : updater) (prev : V) : V :=
  match u with
  | UpdaterFn f =>
      match f prev with
      | Some next => next
      | None => prev                 (* catch: keep previous value *)
      end
  | UpdaterValue v => v
  end.

Definition updateValue (u : updater) (h : hook) : hook :=
  setValue (SetBy (applyUpdater u)) h.

End useLocalStorage.

End Hook.

(* ===================================================================== *)
(** ** App.js *)
(* ===================================================================== *)

Module HistoryEntry.

Record t := {
  id : jsstring;
  question : jsstring;
  answer : jsstring;
  timestamp : jsstring;
}.

#[export] Instance eq_dec : EqDecision t.
Proof. solve_decision. Defined.

End HistoryEntry.

Module App.

(** The component's state: the four [useState] cells, the value of the
    [useLocalStorage('qa_history', [])] hook and the [copied] flag. *)
Record AppState := {
  question : jsstring;
  answer : jsstring;
  loading : bool;
  error : jsstring;
  history : list HistoryEntry.t;
  copied : bool;
}.

Definition initialState (stored : list HistoryEntry.t) : AppState :=
  {| question := []; answer := []; loading := false; error := [];
     history := stored; copied := false |}.

(** [Date.now()], [Math.random().toString(36).slice(2)] and
    [new Date().toISOString()] at the moment the entry is built. *)
Record clock := {
  now_ms : N;
  random36 : jsstring;
  now_iso : jsstring;
}.

Definition MSG_FALLBACK : jsstring :=
  lit "Failed to get an answer. Please try again.".

(** [!!question.trim() && !loading] *)
Definition canSubmit (st : AppState) : bool :=
  negb (str_eqb (trim (question st)) []) && negb (loading st).

(** [onChange={(e) => setQuestion(e.target.value)}] *)
Definition setQuestion (text : jsstring) (st : AppState) : AppState :=
  {| question := text; answer := answer st; loading := loading st;
     error := error st; history := history st; copied := copied st |}.

(** [handleSubmit] up to the [await]: [None] when the guard returns
    early, otherwise the [question] captured by the closure and the state
    after [setLoading(true); setError(''); setAnswer('')]. *)
Definition submitStart (st : AppState) : option (jsstring * AppState) :=
  if negb (canSubmit st) then None
  else Some (question st,
             {| question := question st; answer := []; loading := true;
                error := []; history := history st; copied := copied st |}).

(** The entry built on lines 83-88. *)
Definition makeEntry (captured response : jsstring) (clk : clock) : HistoryEntry.t :=
  {| HistoryEntry.id := decimal (now_ms clk) ++ lit "-" ++ random36 clk;
     HistoryEntry.question := trim captured;
     HistoryEntry.answer := response;
     HistoryEntry.timestamp := now_iso clk |}.

(** The message shown by the [catch] block (lines 98-100). *)
Definition errorMessage (err : thrown) : jsstring :=
  match messageOf err with
  | Some m => if str_eqb m [] then MSG_FALLBACK else m
  | None => MSG_FALLBACK
  end.

(** [handleSubmit] after the [await]: [captured] is the closure's
    [question], [st] the state at the time the promise settles. *)
Definition submitSettle (captured : jsstring) (res : outcome) (clk : clock)
    (st : AppState) : AppState :=
  match res with
  | Resolved response =>
      {| question := [];
         answer := response;
         loading := false;
         error := error st;
         history := makeEntry captured response clk :: history st;
         copied := copied st |}
  | Rejected err =>
      {| question := question st;
         answer := answer st;
         loading := false;
         error := errorMessage err;
         history := history st;
         copied := copied st |}
  end.

(** A whole run of [handleSubmit] with nothing interleaved: the argument
    [askQuestion] was called with, if it was called, and the final state. *)
Definition handleSubmit (ask : jsstring -> outcome) (clk : clock) (st : AppState)
  : option jsstring * AppState :=
  match submitStart st with
  | None => (None, st)
  | Some (captured, st1) =>
      (Some (trim captured), submitSettle captured (ask (trim captured)) clk st1)
  end.

Definition retry (ask : jsstring -> outcome) (clk : clock) (st : AppState)
  : option jsstring * AppState :=
  if str_eqb (trim (question st)) [] || loading st then (None, st)
  else handleSubmit ask clk st.

(** [history.find((h) => h.id === entryId)] *)
Definition findEntry (entryId : jsstring) (h : list HistoryEntry.t)
  : option HistoryEntry.t :=
  List.find (fun e => str_eqb (HistoryEntry.id e) entryId) h.

Definition loadFromHistory (entryId : jsstring) (st : AppState) : AppState :=
  match findEntry entryId (history st) with
  | None => st
  | Some item =>
      {| question := HistoryEntry.question item;
         answer := HistoryEntry.answer item;
         loading := loading st;
         error := [];
         history := history st;
         copied := copied st |}
  end.

(** [clearHistory]; [confirmed] is what [window.confirm] returned. *)
Definition clearHistory (confirmed : bool) (st : AppState) : AppState :=
  if confirmed then
    {| question := question st; answer := []; loading := loading st;
       error := []; history := []; copied := copied st |}
  else st.

(** Modelled from the spec: the delete-entry action of the application
    view is not in the sources at hand (only its test is). It removes the
    entry carrying the given id and keeps the others in their order. *)
Definition deleteEntry (entryId : jsstring) (st : AppState) : AppState :=
  {| question := question st; answer := answer st; loading := loading st;
     error := error st;
     history := filter (fun e => HistoryEntry.id e <> entryId) (history st);
     copied := copied st |}.

(** The cap on the history length named by the specification and
    asserted by the test "history length is capped at 200 most recent
    entries"; [handleSubmit] does not refer to it. *)
Definition HISTORY_CAP : nat := 200.

(** [askQuestion] as imported by the component. *)
Definition askViaApi (env : option jsstring) (net : Api.network) (q : jsstring)
  : outcome :=
  Api.askQuestion env net (VString q).

End App.

(* ===================================================================== *)
(** ** Properties stated by the specification *)
(* ===================================================================== *)

Module Spec.
Import Api.


(** A rejection is a malformed-response error when it carries the
    message thrown for a body without a string [answer]. *)
Definition isMalformedResponseError (err : thrown) : Prop :=
  messageOf err = Some MSG_MALFORMED.

(** A rejection is an invalid-input error when it is the error thrown by
    the guard of [askQuestion]. *)
Definition InvalidInput : thrown := mkError MSG_INVALID.

End Spec.

(* ===================================================================== *)
(** ** Sample data *)
(* ===================================================================== *)

Module Sample.
Import Api.

Definition remoteEnv : option jsstring := Some (lit "https://api.example.com/").

(** HTTP 500 with the JSON body [{ message: 'database down' }]. *)
Definition res500 : response :=
  {| status := 500;
     statusText := lit "Internal Server Error";
     content_type := Some (lit "application/json; charset=utf-8");
     body_json := inr (VObject [(lit "message", VString (lit "database down"))]);
     body_text := inr (lit "{" ++ dquote ++ lit "message" ++ dquote ++ lit ":"
                       ++ dquote ++ lit "database down" ++ dquote ++ lit "}") |}.

(** HTTP 200 with the JSON body [{ answer: '42' }]. *)
Definition res200 : response :=
  {| status := 200;
     statusText := lit "OK";
     content_type := Some (lit "application/json");
     body_json := inr (VObject [(lit "answer", VString (lit "42"))]);
     body_text := inr (lit "{" ++ dquote ++ lit "answer" ++ dquote ++ lit ":"
                       ++ dquote ++ lit "42" ++ dquote ++ lit "}") |}.

(** HTTP 200 with the JSON body [{}]. *)
Definition res200empty : response :=
  {| status := 200;
     statusText := lit "OK";
     content_type := Some (lit "application/json");
     body_json := inr (VObject []);
     body_text := inr (lit "{}") |}.

Definition respondWith (res : response) : network := fun _ => FetchResolves 120 res.

Definition stalled : network := fun _ => FetchPending.

(** A hook holding a counter, serialised in decimal, over an empty
    storage that accepts every write. *)
Definition emptyStorage : Hook.localStorage :=
  {| Hook.items := ∅; Hook.getItem_throws := false;
     Hook.setItem_throws := fun _ _ => false |}.

Definition counterHook : Hook.hook (V := N) :=
  {| Hook.value := 4; Hook.storage := emptyStorage |}.

Definition stringifyCounter (n : N) : option jsstring := Some (decimal n).

Definition increment (n : N) : option N := Some (n + 1).

Definition throwing (n : N) : option N := None.

(** The entry recorded for the [n]-th question. *)
Definition numbered (n : nat) : HistoryEntry.t :=
  {| HistoryEntry.id := decimal (N.of_nat n);
     HistoryEntry.question := lit "Question " ++ decimal (N.of_nat n);
     HistoryEntry.answer := lit "A for Question " ++ decimal (N.of_nat n);
     HistoryEntry.timestamp := lit "2023-01-01T00:00:00.000Z" |}.

(** Two hundred entries: 200 is the newest, 1 the oldest. *)
Definition fullHistory : list HistoryEntry.t :=
  List.map numbered (rev (seq 1 200)).

Definition twoEntries : list HistoryEntry.t := [numbered 2; numbered 1].

Definition clk : App.clock :=
  {| App.now_ms := 1672531200000; App.random36 := lit "k3x9p2";
     App.now_iso := lit "2023-01-01T00:00:00.000Z" |}.

(** The user has typed a question, padded with blanks, over a history. *)
Definition typed (h : list HistoryEntry.t) : App.AppState :=
  App.setQuestion (lit "  What is AI?  ") (App.initialState h).

Definition answering : jsstring -> outcome :=
  fun _ => Resolved (lit "Mocked answer response").

Definition failing : jsstring -> outcome :=
  fun _ => Rejected (mkError (lit "Network")).

End Sample.

(* ===================================================================== *)
(** ** The earlier client (second half of the client sources) *)
(* ===================================================================== *)

Module ApiLegacy.
Import Api.

(** The message thrown for a response that is not ok:
    [`Request failed: ${res.status} ${res.statusText} ${text ? `- ${text}` : ''}`]
    with [text = await res.text().catch(() => '')]. *)
Definition errorText (res : response) : jsstring :=
  match body_text res with
  | inr t => t
  | inl _ => []
  end.

Definition httpErrorMessage (res : response) : jsstring :=
  lit "Request failed: " ++ decimal (status res) ++ lit " " ++ statusText res
  ++ lit " "
  ++ (if str_eqb (errorText res) [] then [] else lit "- " ++ errorText res).

(** The statements after [await fetch]; nothing is caught here. *)
Definition handleResponse (res : response) : outcome :=
  if negb (ok res) then Rejected (mkError (httpErrorMessage res))
  else
    match body_json res with
    | inl err => Rejected err
    | inr data =>
        if negb (truthy data) then Rejected (mkError MSG_MALFORMED)
        else
          match getProp data (lit "answer") with
          | VString answer => Resolved answer
          | _ => Rejected (mkError MSG_MALFORMED)
          end
    end.

(** [askQuestionReal] without timer and without [catch]: the promise
    settles when [fetch] does, and stays pending ([None]) when it never
    does. *)
Definition askQuestionReal (base : jsstring) (net : network) (question : jsstring)
  : option outcome :=
  match net (buildRequest base question) with
  | FetchResolves _ res => Some (handleResponse res)
  | FetchRejects _ err => Some (Rejected err)
  | FetchPending => None
  end.

Definition askQuestion (env : option jsstring) (net : network) (question : value)
  : option outcome :=
  if negb (truthy question) || negb (bool_decide (typeof question = TyString))
  then Some (Rejected (mkError MSG_INVALID))
  else
    match question with
    | VString q =>
        if isMock env then Some (askQuestionMock q)
        else askQuestionReal (API_BASE env) net q
    | _ => Some (Rejected (mkError MSG_INVALID))
    end.

End ApiLegacy.

(* ===================================================================== *)
(** ** The request over time *)
(* ===================================================================== *)

Module Timed.
Import Api.

(** A response as it arrives: its head [head_at] milliseconds after the
    call, at which [fetch] resolves, and its body [body_at] milliseconds
    after the call, or never; [arrived] is the response with what the
    body reads settle to when they are left to complete. *)
Record arrival := {
  head_at : N;
  body_at : option N;
  arrived : response;
}.

Inductive exchange :=
| Arrives (a : arrival)
| Fails (t : N) (err : thrown)
| Silent.

(** The timer is armed before [fetch] is called and cleared in the
    [finally] block only: it fires during [await res.json()] or
    [await res.text()] when the body is not complete by then. *)
Definition bodyCut (a : arrival) : bool :=
  match body_at a with
  | Some t => TIMEOUT_MS <=? t
  | None => true
  end.

(** The response as the client with the timer sees it: a body read cut
    by [controller.abort()] rejects with the [AbortError]. *)
Definition seen (a : arrival) : response :=
  if bodyCut a then
    {| status := status (arrived a);
       statusText := statusText (arrived a);
       content_type := content_type (arrived a);
       body_json := inl abortError;
       body_text := inl abortError |}
  else arrived a.

Definition observe (x : exchange) : fetch_outcome :=
  match x with
  | Arrives a => FetchResolves (head_at a) (seen a)
  | Fails t err => FetchRejects t err
  | Silent => FetchPending
  end.

(** The response as a client without timer sees it: nothing cuts the
    body read, which stays pending when the body never arrives. *)
Definition observeUntimed (x : exchange) : fetch_outcome :=
  match x with
  | Arrives a =>
      match body_at a with
      | Some _ => FetchResolves (head_at a) (arrived a)
      | None => FetchPending
      end
  | Fails t err => FetchRejects t err
  | Silent => FetchPending
  end.

(** The request timed out: the timer fired before the [finally] block
    was reached, while [fetch] or the body read was pending. Every path
    through the [try] block reads the body of the response. *)
Definition timedOut (x : exchange) : bool :=
  match x with
  | Arrives a => (TIMEOUT_MS <=? head_at a) || bodyCut a
  | Fails t _ => TIMEOUT_MS <=? t
  | Silent => true
  end.

Definition askQuestionReal (base : jsstring) (net : request -> exchange)
    (question : jsstring) : outcome :=
  Api.askQuestionReal base (fun req => observe (net req)) question.

Definition askQuestion (env : option jsstring) (net : request -> exchange)
    (question : value) : outcome :=
  Api.askQuestion env (fun req => observe (net req)) question.

(** The earlier client on the same exchange. *)
Definition askQuestionRealUntimed (base : jsstring) (net : request -> exchange)
    (question : jsstring) : option outcome :=
  ApiLegacy.askQuestionReal base (fun req => observeUntimed (net req)) question.

End Timed.

(* ===================================================================== *)
(** ** Sequences of updates of the hook, and the earlier initialiser *)
(* ===================================================================== *)

Module HookRun.
Import Hook.

(** Successive calls of the state setter. *)
Definition setValues {V : Type} `{EqDecision V} (stringify : V -> option jsstring)
    (key : jsstring) (acts : list (action (V := V))) (h : hook (V := V))
  : hook (V := V) :=
  foldl (fun h a => setValue stringify key a h) h acts.

(** The storage holds the serialisation of the value of the hook. *)
Definition inSync {V : Type} (stringify : V -> option jsstring) (key : jsstring)
    (h : hook (V := V)) : Prop :=
  exists s, stringify (value h) = Some s /\ items (storage h) !! key = Some s.

Definition QA_HISTORY : jsstring := lit "qa_history".

(** The initialiser of the history before the hook was introduced:
    [stored ? JSON.parse(stored) : []] inside [try], [[]] in [catch]. *)
Definition legacyInitHistory (parse : jsstring -> option (list HistoryEntry.t))
    (ls : localStorage) : list HistoryEntry.t :=
  if getItem_throws ls then []
  else
    match items ls !! QA_HISTORY with
    | None => []
    | Some stored =>
        if str_eqb stored [] then [] else default [] (parse stored)
    end.

End HookRun.

(* ===================================================================== *)
(** ** What the component renders, and the events it reacts to *)
(* ===================================================================== *)

Module View.
Import App.

(** A string used as a condition: it is truthy when not empty. *)
Definition nonEmpty (s : jsstring) : bool := negb (str_eqb s []).

(** [{error && (...)}]: the alert and the retry button. *)
Definition showAlert (st : AppState) : bool := nonEmpty (error st).

(** [{!error && !answer && !loading && (...)}]: the placeholder. *)
Definition showPlaceholder (st : AppState) : bool :=
  negb (nonEmpty (error st)) && negb (nonEmpty (answer st)) && negb (loading st).

(** [{!error && (answer || loading) && (...)}]: the answer and the copy
    button. *)
Definition showAnswer (st : AppState) : bool :=
  negb (nonEmpty (error st)) && (nonEmpty (answer st) || loading st).

(** [{loading ? 'Thinking…' : answer}] *)
Definition answerText (st : AppState) : jsstring :=
  if loading st then lit "Thinking" ++ [8230] else answer st.

(** The [disabled] attributes of the four buttons. *)
Definition submitDisabled (st : AppState) : bool := negb (canSubmit st).

Definition retryDisabled (st : AppState) : bool :=
  negb (nonEmpty (trim (question st))) || loading st.

Definition copyDisabled (st : AppState) : bool :=
  negb (nonEmpty (answer st)) || loading st.

Definition clearDisabled (st : AppState) : bool :=
  Nat.eqb (length (history st)) 0.

(** The fields of the keyboard event that [onTextareaKeyDown] reads. *)
Record keyEvent := {
  key : jsstring;
  shiftKey : bool;
  metaKey : bool;
  ctrlKey : bool;
}.

(** [onTextareaKeyDown]; [isMac] is the value of the test on
    [navigator.platform]. The result tells whether [preventDefault] was
    called and gives the [handleSubmit] that was started, if any. *)
Definition onTextareaKeyDown (isMac : bool) (e : keyEvent) (st : AppState)
  : bool * option (jsstring * AppState) :=
  let isEnter := str_eqb (key e) (lit "Enter") in
  let metaOrCtrl := if isMac then metaKey e else ctrlKey e in
  if isEnter && (metaOrCtrl || negb (shiftKey e)) then
    (true, if canSubmit st then submitStart st else None)
  else (false, None).

(** What [navigator.clipboard.writeText] does when called. *)
Inductive clipboardEnv := NoClipboard | WriteRejects | WriteResolves.

(** The page: the state of the component, the captured questions of the
    [handleSubmit] calls awaiting their answer, the clipboard, and
    whether the timer that resets [copied] is pending. *)
Record page := {
  ui : AppState;
  inflight : list jsstring;
  clipboard : option jsstring;
  copiedTimer : bool;
}.

Definition withUi (st : AppState) (p : page) : page :=
  {| ui := st; inflight := inflight p; clipboard := clipboard p;
     copiedTimer := copiedTimer p |}.

Definition setCopied (b : bool) (st : AppState) : AppState :=
  {| question := question st; answer := answer st; loading := loading st;
     error := error st; history := history st; copied := b |}.

(** [copyAnswer] (lines 136-146). *)
Definition copyAnswer (env : clipboardEnv) (p : page) : page :=
  if negb (nonEmpty (answer (ui p))) then p
  else
    match env with
    | NoClipboard => p
    | WriteRejects => p                       (* ignore copy failures *)
    | WriteResolves =>
        {| ui := setCopied true (ui p);
           inflight := inflight p;
           clipboard := Some (answer (ui p));
           copiedTimer := true |}
    end.

(** A call of [handleSubmit] from the page: the request joins the ones
    in flight. *)
Definition startSubmit (p : page) : page :=
  match submitStart (ui p) with
  | None => p
  | Some (captured, st1) =>
      {| ui := st1; inflight := inflight p ++ [captured];
         clipboard := clipboard p; copiedTimer := copiedTimer p |}
  end.

Inductive event :=
| TypeText (text : jsstring)                     (* onChange of the textarea *)
| KeyDown (isMac : bool) (e : keyEvent)
| ClickAsk
| ClickRetry
| Settle (i : nat) (res : outcome) (clk : clock) (* the i-th request settles *)
| ClickHistory (entryId : jsstring)
| ClickClear (confirmed : bool)
| ClickCopy (env : clipboardEnv)
| CopiedTimeout.                                 (* 1200 ms after a copy *)

(** One event, handled by the closures of the latest render. A button
    that is not rendered or is disabled receives no click. *)
Definition step (p : page) (ev : event) : page :=
  match ev with
  | TypeText text => withUi (setQuestion text (ui p)) p
  | KeyDown isMac e =>
      match snd (onTextareaKeyDown isMac e (ui p)) with
      | Some _ => startSubmit p
      | None => p
      end
  | ClickAsk => if submitDisabled (ui p) then p else startSubmit p
  | ClickRetry =>
      if negb (showAlert (ui p)) || retryDisabled (ui p) then p
      else if str_eqb (trim (question (ui p))) [] || loading (ui p) then p
      else startSubmit p
  | Settle i res clk =>
      match inflight p !! i with
      | None => p
      | Some captured =>
          {| ui := submitSettle captured res clk (ui p);
             inflight := delete i (inflight p);
             clipboard := clipboard p; copiedTimer := copiedTimer p |}
      end
  | ClickHistory entryId => withUi (loadFromHistory entryId (ui p)) p
  | ClickClear confirmed =>
      if clearDisabled (ui p) then p
      else withUi (clearHistory confirmed (ui p)) p
  | ClickCopy env =>
      if negb (showAnswer (ui p)) || copyDisabled (ui p) then p
      else copyAnswer env p
  | CopiedTimeout =>
      if copiedTimer p then
        {| ui := setCopied false (ui p); inflight := inflight p;
           clipboard := clipboard p; copiedTimer := false |}
      else p
  end.

Definition run (p : page) (evs : list event) : page := foldl step p evs.

Definition initialPage (stored : list HistoryEntry.t) : page :=
  {| ui := initialState stored; inflight := []; clipboard := None;
     copiedTimer := false |}.

(** Exactly one request is in flight while [loading] is set, and none
    otherwise. *)
Definition oneAtATime (p : page) : Prop :=
  (loading (ui p) = true /\ length (inflight p) = 1%nat)
  \/ (loading (ui p) = false /\ inflight p = []).

(** A question as the history stores it: trimmed and not empty. *)
Definition storedQuestion (q : jsstring) : Prop := trim q = q /\ q <> [].

(** Every entry of the history stores such a question, and every request
    in flight was started on a question that is not blank. *)
Definition wellFormed (p : page) : Prop :=
  Forall (fun e => storedQuestion (HistoryEntry.question e)) (history (ui p))
  /\ Forall (fun captured => trim captured <> []) (inflight p).

(** The [Copied!] label and its timer go together, and the clipboard
    holds nothing or a non-empty string. *)
Definition copyInvariant (p : page) : Prop :=
  copied (ui p) = copiedTimer p /\ forall s, clipboard p = Some s -> s <> [].

Definition isConfirmedClear (ev : event) : bool :=
  match ev with
  | ClickClear true => true
  | _ => false
  end.

End View.

(* ===================================================================== *)
(** ** More sample data *)
(* ===================================================================== *)

Module Scenario.
Import Api.

(** HTTP 504 from a proxy, with a plain-text body. *)
Definition res504 : response :=
  {| status := 504;
     statusText := lit "Gateway Timeout";
     content_type := Some (lit "text/plain");
     body_json := inl (ThrownError ClsSyntaxError (lit "SyntaxError")
                                   (lit "Unexpected token u in JSON at position 0"));
     body_text := inr (lit "upstream unavailable") |}.

(** The browser is offline: [fetch] fails at once. *)
Definition offline : network :=
  fun _ => FetchRejects 15 (ThrownError ClsTypeError (lit "TypeError")
                                        (lit "Failed to fetch")).

(** The server answers 500 after one second and the body is still on
    its way when the timer fires. *)
Definition slowErrorBody : request -> Timed.exchange :=
  fun _ => Timed.Arrives {| Timed.head_at := 1000; Timed.body_at := None;
                            Timed.arrived := Sample.res500 |}.

(** The server answers 200 after one second and the body is complete
    after forty. *)
Definition slowAnswerBody : request -> Timed.exchange :=
  fun _ => Timed.Arrives {| Timed.head_at := 1000; Timed.body_at := Some 40000;
                            Timed.arrived := Sample.res200 |}.

(** The server answers 200 and the body is complete well in time. *)
Definition promptAnswer : request -> Timed.exchange :=
  fun _ => Timed.Arrives {| Timed.head_at := 120; Timed.body_at := Some 300;
                            Timed.arrived := Sample.res200 |}.

(** A hook holding a flag, stored as [true] or [false]. *)
Definition stringifyFlag (b : bool) : option jsstring :=
  Some (if b then lit "true" else lit "false").

Definition parseFlag (s : jsstring) : option bool :=
  if str_eqb s (lit "true") then Some true
  else if str_eqb s (lit "false") then Some false
  else None.

Definition flagHook : Hook.hook (V := bool) :=
  {| Hook.value := false; Hook.storage := Sample.emptyStorage |}.

(** A storage whose history item is not valid JSON. *)
Definition corruptStorage : Hook.localStorage :=
  {| Hook.items := {[ HookRun.QA_HISTORY := lit "{not json" ]};
     Hook.getItem_throws := false;
     Hook.setItem_throws := fun _ _ => false |}.

(** A parser that accepts nothing but the empty array. *)
Definition parseEmptyArray (s : jsstring) : option (list HistoryEntry.t) :=
  if str_eqb s (lit "[]") then Some [] else None.

(** The page after the user has typed a question over two entries. *)
Definition typedPage : View.page :=
  View.withUi (Sample.typed Sample.twoEntries) (View.initialPage Sample.twoEntries).

Definition enter : View.keyEvent :=
  {| View.key := lit "Enter"; View.shiftKey := false;
     View.metaKey := false; View.ctrlKey := false |}.

Definition shiftEnter : View.keyEvent :=
  {| View.key := lit "Enter"; View.shiftKey := true;
     View.metaKey := false; View.ctrlKey := false |}.

End Scenario.

(* ===================================================================== *)
(** ** Facts about strings *)
(* ===================================================================== *)

Module JSFacts.

Lemma str_eqb_eq a b : str_eqb a b = true <-> a = b.
Proof. unfold str_eqb. apply bool_decide_eq_true. Qed.

Lemma str_eqb_neq a b : str_eqb a b = false <-> a <> b.
Proof. unfold str_eqb. apply bool_decide_eq_false. Qed.

Lemma startsWith_app n post : startsWith n (n ++ post) = true.
Proof.
  induction n as [|c n IH]; simpl; [reflexivity|].
  now rewrite N.eqb_refl, IH.
Qed.

Lemma includes_unfold n h :
  includes n h = startsWith n h
                 || match h with [] => false | _ :: rest => includes n rest end.
Proof. destruct h; reflexivity. Qed.

Lemma includes_app pre n post : includes n (pre ++ n ++ post) = true.
Proof.
  induction pre as [|c pre IH]; simpl.
  - rewrite includes_unfold, startsWith_app. reflexivity.
  - rewrite IH. apply orb_true_r.
Qed.

Lemma includes_suffix pre n : includes n (pre ++ n) = true.
Proof. rewrite <- (app_nil_r n) at 2. apply includes_app. Qed.

Lemma includes_nil h : includes [] h = true.
Proof. destruct h; reflexivity. Qed.

Lemma trimStart_all_ws s : forallb isWhiteSpace s = true -> trimStart s = [].
Proof.
  induction s as [|c s IH]; simpl; [reflexivity|].
  intros [Hc Hs]%andb_true_iff. rewrite Hc. auto.
Qed.

Lemma trim_all_ws s : forallb isWhiteSpace s = true -> trim s = [].
Proof. intros H. unfold trim. rewrite trimStart_all_ws by exact H. reflexivity. Qed.

Lemma trimStart_head s c rest : trimStart s = c :: rest -> isWhiteSpace c = false.
Proof.
  induction s as [|d s IH]; simpl; [discriminate|].
  destruct (isWhiteSpace d) eqn:Hd; [exact IH|].
  intros [= <- _]. exact Hd.
Qed.

Lemma trimStart_suffix s : exists ws, s = ws ++ trimStart s /\ forallb isWhiteSpace ws = true.
Proof.
  induction s as [|d s [ws [Heq Hws]]]; simpl.
  - exists []. split; reflexivity.
  - destruct (isWhiteSpace d) eqn:Hd.
    + exists (d :: ws). simpl. rewrite Hd, Hws. split; [congruence|reflexivity].
    + exists []. split; reflexivity.
Qed.

End JSFacts.

(* ===================================================================== *)
(** ** The answer-fetch client *)
(* ===================================================================== *)

Module ApiFacts.
Import Api Spec JSFacts.

Ltac msg_neq := let H := fresh in intro H; vm_compute in H; discriminate H.

Lemma timeout_neq_network : MSG_TIMEOUT <> MSG_NETWORK.
Proof. msg_neq. Qed.

Lemma timeout_neq_generic : MSG_TIMEOUT <> MSG_GENERIC.
Proof. msg_neq. Qed.

Lemma network_neq_generic : MSG_NETWORK <> MSG_GENERIC.
Proof. msg_neq. Qed.

Lemma generic_neq_malformed : MSG_GENERIC <> MSG_MALFORMED.
Proof. msg_neq. Qed.

(** Whatever is caught, the caller sees one of three fixed errors. *)
Lemma toUserFriendlyError_cases err :
  toUserFriendlyError err = mkError MSG_TIMEOUT
  \/ toUserFriendlyError err = mkError MSG_NETWORK
  \/ toUserFriendlyError err = mkError MSG_GENERIC.
Proof.
  unfold toUserFriendlyError.
  destruct (hasAbortName err || abortPattern (default [] (messageOf err)));
    [now left|].
  destruct (isTypeError err); [right; now left | right; now right].
Qed.

Lemma toUserFriendlyError_not_invalid err :
  toUserFriendlyError err <> InvalidInput.
Proof.
  unfold InvalidInput.
  destruct (toUserFriendlyError_cases err) as [-> | [-> | ->]];
    intros [= H]; vm_compute in H; discriminate H.
Qed.

(** An error named [AbortError] is reported as a timeout, whatever its
    message and constructor. *)
Lemma toUserFriendlyError_abort cls m :
  toUserFriendlyError (ThrownError cls (lit "AbortError") m) = mkError MSG_TIMEOUT.
Proof. reflexivity. Qed.

(** A plain [Error] whose message does not match the abort pattern is
    collapsed to the generic error. *)
Lemma toUserFriendlyError_plain m :
  abortPattern m = false -> toUserFriendlyError (mkError m) = mkError MSG_GENERIC.
Proof.
  intros H. unfold toUserFriendlyError, mkError. simpl messageOf. simpl default.
  rewrite H. reflexivity.
Qed.

Lemma malformed_no_abort_words : abortPattern MSG_MALFORMED = false.
Proof. vm_compute. reflexivity. Qed.

Lemma getProp_string_truthy data k a : getProp data k = VString a -> truthy data = true.
Proof. destruct data; simpl; try discriminate; reflexivity. Qed.

(** The guard of [askQuestion] passes exactly on non-empty strings. *)
Lemma askQuestion_string env net q :
  q <> [] ->
  askQuestion env net (VString q)
  = if isMock env then askQuestionMock q else askQuestionReal (API_BASE env) net q.
Proof.
  intros Hq. unfold askQuestion. simpl.
  apply str_eqb_neq in Hq. rewrite Hq. reflexivity.
Qed.

Lemma awaitFetch_in_time t res :
  timerFires (FetchResolves t res) = false -> awaitFetch (FetchResolves t res) = inr res.
Proof. intros H. unfold awaitFetch. rewrite H. reflexivity. Qed.

Lemma awaitFetch_timed_out f : timerFires f = true -> awaitFetch f = inl abortError.
Proof. intros H. unfold awaitFetch. rewrite H. reflexivity. Qed.

(** The [try] block on a response that arrived in time and is not ok:
    the technical error is thrown. *)
Lemma tryRequest_http_error base net q t res :
  net (buildRequest base q) = FetchResolves t res ->
  timerFires (FetchResolves t res) = false -> ok res = false ->
  tryRequest base net q = inl (mkError (httpErrorMessage res)).
Proof.
  intros Hnet Ht Hok. unfold tryRequest. rewrite Hnet, awaitFetch_in_time by exact Ht.
  unfold handleResponse. rewrite Hok. reflexivity.
Qed.

(** A request still in flight when the timer fires is reported as a
    timeout. *)
Lemma askQuestion_timed_out env net q :
  isMock env = false -> q <> [] ->
  timerFires (net (buildRequest (API_BASE env) q)) = true ->
  askQuestion env net (VString q) = Rejected (mkError MSG_TIMEOUT).
Proof.
  intros Hmode Hq Hfire. rewrite askQuestion_string by exact Hq. rewrite Hmode.
  unfold askQuestionReal, tryRequest.
  rewrite awaitFetch_timed_out by exact Hfire.
  unfold abortError. now rewrite toUserFriendlyError_abort.
Qed.


End ApiFacts.

Module ApiSpec.
Import Api Spec JSFacts ApiFacts.





(** C4, as stated, fails: a 200 response whose JSON body [{}] has no
    [answer] makes [askQuestion] reject, but not with a
    malformed-response error. *)
Lemma malformed_body_not_reported_as_such :
  exists err,
    askQuestion Sample.remoteEnv (Sample.respondWith Sample.res200empty)
                (VString (lit "What is AI?")) = Rejected err
    /\ ~ isMalformedResponseError err.
Proof.
  exists (mkError MSG_GENERIC). split.
  - vm_compute. reflexivity.
  - unfold isMalformedResponseError, mkError, messageOf. intros H.
    apply generic_neq_malformed. congruence.
Qed.

(** C4, amended: for a non-empty question, in mock mode [askQuestion]
    resolves to a string containing the question; in remote mode, on an
    ok response that arrived in time, it resolves to the [answer] field
    verbatim when the JSON body has a string [answer]; when the body is
    JSON of any other shape it rejects with the generic "Something went
    wrong while contacting the server" error, and when the body is not
    JSON it rejects with the normalised parse error. *)
Theorem askQuestion_answer env net q :
  q <> [] ->
  (isMock env = true ->
   exists pre post, askQuestion env net (VString q) = Resolved (pre ++ q ++ post))
  /\ (isMock env = false ->
      forall t res,
        net (buildRequest (API_BASE env) q) = FetchResolves t res ->
        timerFires (FetchResolves t res) = false ->
        ok res = true ->
        (forall data a,
            body_json res = inr data -> getProp data (lit "answer") = VString a ->
            askQuestion env net (VString q) = Resolved a)
        /\ (forall data,
               body_json res = inr data ->
               (forall a, getProp data (lit "answer") <> VString a) ->
               askQuestion env net (VString q) = Rejected (mkError MSG_GENERIC))
        /\ (forall err,
               body_json res = inl err ->
               askQuestion env net (VString q) = Rejected (toUserFriendlyError err))).
Proof.
  intros Hq. split.
  - intros Hmode. rewrite askQuestion_string by exact Hq. rewrite Hmode.
    unfold askQuestionMock, mockAnswer.
    exists (lit "This is a placeholder answer for: " ++ dquote).
    eexists. rewrite <- !app_assoc. reflexivity.
  - intros Hmode t res Hnet Ht Hok.
    assert (Hreal : askQuestion env net (VString q)
                    = match handleResponse res with
                      | inr a => Resolved a
                      | inl e => Rejected (toUserFriendlyError e)
                      end).
    { rewrite askQuestion_string by exact Hq. rewrite Hmode.
      unfold askQuestionReal, tryRequest.
      rewrite Hnet, awaitFetch_in_time by exact Ht. reflexivity. }
    rewrite Hreal. unfold handleResponse. rewrite Hok. simpl negb. cbv iota.
    repeat split.
    + intros data a -> Ha.
      rewrite (getProp_string_truthy _ _ _ Ha), Ha. reflexivity.
    + intros data -> Hno.
      destruct (truthy data).
      * simpl negb. cbv iota.
        destruct (getProp data (lit "answer")) eqn:E;
          try (now rewrite toUserFriendlyError_plain by exact malformed_no_abort_words).
        exfalso. exact (Hno _ eq_refl).
      * simpl negb. cbv iota.
        now rewrite toUserFriendlyError_plain by exact malformed_no_abort_words.
    + intros err ->. reflexivity.
Qed.

Lemma askQuestion_answer_witness :
  askQuestion Sample.remoteEnv (Sample.respondWith Sample.res200)
              (VString (lit "What is AI?")) = Resolved (lit "42").
Proof.
  destruct (askQuestion_answer Sample.remoteEnv (Sample.respondWith Sample.res200)
              (lit "What is AI?")) as [_ Hremote]; [discriminate|].
  destruct (Hremote eq_refl 120 Sample.res200 eq_refl eq_refl eq_refl) as (Hans & _).
  apply (Hans (VObject [(lit "answer", VString (lit "42"))])); reflexivity.
Defined.

(** C5: [askQuestion] rejects with the invalid-input error exactly when
    its argument is the empty string or is not a string; the guard runs
    before either mode is entered, so this holds in mock and in remote
    mode and whatever the network does. *)
Theorem askQuestion_invalid_input env net question :
  askQuestion env net question = Rejected InvalidInput
  <-> (question = VString [] \/ typeof question <> TyString).
Proof.
  split.
  - destruct question as [| |b|z| |s|items|fields];
      try (intros _; right; discriminate).
    destruct s as [|c s]; [intros _; now left|].
    rewrite askQuestion_string by discriminate.
    destruct (isMock env); [discriminate|].
    unfold askQuestionReal. destruct (tryRequest _ _ _); [|discriminate].
    intros [= H]. exfalso. exact (toUserFriendlyError_not_invalid _ H).
  - intros [-> | Hty]; [reflexivity|].
    destruct question; try reflexivity; unfold askQuestion; simpl.
    + now rewrite orb_true_r.
    + now rewrite orb_true_r.
    + exfalso. apply Hty. reflexivity.
Qed.

Lemma askQuestion_invalid_input_witness :
  askQuestion Sample.remoteEnv Sample.stalled (VNumber 7) = Rejected InvalidInput
  /\ askQuestion None Sample.stalled (VString []) = Rejected InvalidInput.
Proof.
  split.
  - apply (askQuestion_invalid_input Sample.remoteEnv Sample.stalled (VNumber 7)).
    right. discriminate.
  - apply (askQuestion_invalid_input None Sample.stalled (VString [])).
    left. reflexivity.
Defined.

End ApiSpec.

(* ===================================================================== *)
(** ** The persisted-value hook *)
(* ===================================================================== *)

Module HookSpec.
Import Hook.

Section updateValue.
Context {V : Type} `{EqDecision V}.
Variable parse : jsstring -> option V.
Variable stringify : V -> option jsstring.
Variable key : jsstring.

(** A missing item, an item that does not parse and a storage that
    cannot be read all fall back to the initial value. *)
Lemma readInitial_missing initialValue (ls : localStorage) :
  items ls !! key = None -> readInitial parse key initialValue ls = initialValue.
Proof. intros H. unfold readInitial. rewrite H. now destruct (getItem_throws ls). Qed.

Lemma readInitial_corrupt initialValue raw (ls : localStorage) :
  items ls !! key = Some raw -> parse raw = None ->
  readInitial parse key initialValue ls = initialValue.
Proof.
  intros H Hp. unfold readInitial. rewrite H, Hp. now destruct (getItem_throws ls).
Qed.

Lemma readInitial_unavailable initialValue (ls : localStorage) :
  getItem_throws ls = true -> readInitial parse key initialValue ls = initialValue.
Proof. intros H. unfold readInitial. now rewrite H. Qed.

Lemma setValue_value a (h : hook (V := V)) :
  value (setValue stringify key a h)
  = match a with SetTo v => v | SetBy f => f (value h) end.
Proof.
  unfold setValue. destruct a as [v|f]; case_decide; simpl; congruence.
Qed.

Lemma persist_written v s (ls : localStorage) :
  stringify v = Some s -> setItem_throws ls key s = false ->
  items (persist stringify key v ls) !! key = Some s.
Proof.
  intros Hs Hw. unfold persist. rewrite Hs, Hw. simpl. apply lookup_insert_eq.
Qed.

Lemma persist_other v k (ls : localStorage) :
  k <> key -> items (persist stringify key v ls) !! k = items ls !! k.
Proof.
  intros Hk. unfold persist. destruct (stringify v) as [s|]; [|reflexivity].
  destruct (setItem_throws ls key s); [reflexivity|].
  simpl. apply lookup_insert_ne. congruence.
Qed.

End updateValue.

(** C7: [updateValue] applies the updater function to the value held
    before and stores what it returns: this becomes the hook's value
    and, when it is a new value that serialises and the write is
    accepted, the item kept under the key; if the function throws, the
    hook (value and storage) is left as it was. *)
Theorem updateValue_applies_or_keeps {V : Type} `{EqDecision V}
    (stringify : V -> option jsstring) (key : jsstring)
    (f : V -> option V) (h : hook (V := V)) :
  (forall next,
      f (value h) = Some next ->
      value (updateValue stringify key (UpdaterFn f) h) = next
      /\ (forall s,
             next <> value h -> stringify next = Some s ->
             setItem_throws (storage h) key s = false ->
             items (storage (updateValue stringify key (UpdaterFn f) h)) !! key
             = Some s))
  /\ (f (value h) = None -> updateValue stringify key (UpdaterFn f) h = h).
Proof.
  split.
  - intros next Hf. split.
    + unfold updateValue. rewrite setValue_value. simpl. now rewrite Hf.
    + intros s Hnew Hs Hw. unfold updateValue, setValue. simpl. rewrite Hf.
      case_decide; [contradiction|]. simpl. now apply persist_written.
  - intros Hf. unfold updateValue, setValue. simpl. rewrite Hf.
    case_decide; [reflexivity|contradiction].
Qed.

Lemma updateValue_applies_or_keeps_witness :
  (value (updateValue Sample.stringifyCounter (lit "counter")
                      (UpdaterFn Sample.increment) Sample.counterHook) = 5
   /\ items (storage (updateValue Sample.stringifyCounter (lit "counter")
                        (UpdaterFn Sample.increment) Sample.counterHook))
        !! lit "counter" = Some (lit "5"))
  /\ updateValue Sample.stringifyCounter (lit "counter")
                 (UpdaterFn Sample.throwing) Sample.counterHook
     = Sample.counterHook.
Proof.
  split.
  - destruct (updateValue_applies_or_keeps Sample.stringifyCounter (lit "counter")
                Sample.increment Sample.counterHook) as [Hok _].
    destruct (Hok 5 eq_refl) as [Hv Hs]. split; [exact Hv|].
    apply Hs; [discriminate | reflexivity | reflexivity].
  - destruct (updateValue_applies_or_keeps Sample.stringifyCounter (lit "counter")
                Sample.throwing Sample.counterHook) as [_ Hthrow].
    apply Hthrow. reflexivity.
Defined.

End HookSpec.

(* ===================================================================== *)
(** ** The application view *)
(* ===================================================================== *)

Module AppFacts.
Import App JSFacts.

Lemma canSubmit_true st :
  canSubmit st = true <-> trim (question st) <> [] /\ loading st = false.
Proof.
  unfold canSubmit. rewrite andb_true_iff, !negb_true_iff, str_eqb_neq. tauto.
Qed.

Lemma submitStart_Some st :
  canSubmit st = true ->
  submitStart st
  = Some (question st,
          {| question := question st; answer := []; loading := true; error := [];
             history := history st; copied := copied st |}).
Proof. intros H. unfold submitStart. rewrite H. reflexivity. Qed.

Lemma submitStart_None st : canSubmit st = false -> submitStart st = None.
Proof. intros H. unfold submitStart. rewrite H. reflexivity. Qed.

(** Settling never touches the entries already in the history, whatever
    happened to the state while the request was in flight. *)
Lemma submitSettle_history captured res clk st :
  history (submitSettle captured res clk st)
  = match res with
    | Resolved response => makeEntry captured response clk :: history st
    | Rejected _ => history st
    end.
Proof. destruct res; reflexivity. Qed.

Lemma handleSubmit_run ask clk st :
  canSubmit st = true ->
  handleSubmit ask clk st
  = (Some (trim (question st)),
     submitSettle (question st) (ask (trim (question st))) clk
       {| question := question st; answer := []; loading := true; error := [];
          history := history st; copied := copied st |}).
Proof. intros H. unfold handleSubmit. rewrite submitStart_Some by exact H. reflexivity. Qed.

Lemma handleSubmit_blocked ask clk st :
  canSubmit st = false -> handleSubmit ask clk st = (None, st).
Proof. intros H. unfold handleSubmit. rewrite submitStart_None by exact H. reflexivity. Qed.

Lemma MSG_FALLBACK_nonempty : MSG_FALLBACK <> [].
Proof. intro H. vm_compute in H. discriminate H. Qed.

Lemma errorMessage_nonempty err : errorMessage err <> [].
Proof.
  unfold errorMessage. destruct (messageOf err) as [m|]; [|exact MSG_FALLBACK_nonempty].
  destruct (str_eqb m []) eqn:E; [exact MSG_FALLBACK_nonempty|].
  now apply str_eqb_neq.
Qed.

(** [trim] leaves no white space at either end. *)
Lemma trimEnd_prefix s : exists ws, s = trimEnd s ++ ws.
Proof.
  destruct (trimStart_suffix (rev s)) as (ws & Heq & _).
  exists (rev ws). unfold trimEnd.
  rewrite <- rev_app_distr, <- Heq. symmetry. apply rev_involutive.
Qed.

Lemma trim_head s c rest : trim s = c :: rest -> isWhiteSpace c = false.
Proof.
  unfold trim. intros H.
  destruct (trimEnd_prefix (trimStart s)) as (ws & Heq).
  rewrite H in Heq. simpl in Heq. exact (trimStart_head _ _ _ Heq).
Qed.

Lemma trim_last s init c : trim s = init ++ [c] -> isWhiteSpace c = false.
Proof.
  unfold trim, trimEnd. intros H.
  apply (f_equal (@rev _)) in H. rewrite rev_involutive, rev_app_distr in H.
  simpl in H. exact (trimStart_head _ _ _ H).
Qed.

(** Deleting by id from a history whose ids are pairwise distinct. *)
Lemma filter_id_fresh entryId (l : list HistoryEntry.t) :
  entryId ∉ List.map HistoryEntry.id l ->
  filter (fun e => HistoryEntry.id e <> entryId) l = l.
Proof.
  induction l as [|e l IH]; [reflexivity|]. simpl. intros Hnot.
  rewrite not_elem_of_cons in Hnot. destruct Hnot as [Hne Hl].
  rewrite filter_cons_True by congruence. now rewrite IH.
Qed.

End AppFacts.

Module AppSpec.
Import App JSFacts AppFacts.

(** A successful submission always makes the history one entry longer. *)
Lemma handleSubmit_grows ask clk st response :
  canSubmit st = true -> ask (trim (question st)) = Resolved response ->
  length (history (snd (handleSubmit ask clk st))) = S (length (history st)).
Proof.
  intros Hcan Hask. rewrite handleSubmit_run by exact Hcan. simpl.
  rewrite submitSettle_history, Hask. reflexivity.
Qed.

(** The component shows the timeout message of the client when the
    request is still in flight after 30 seconds. *)
Lemma handleSubmit_shows_timeout env net clk st :
  canSubmit st = true -> Api.isMock env = false ->
  Api.timerFires (net (Api.buildRequest (Api.API_BASE env) (trim (question st)))) = true ->
  error (snd (handleSubmit (askViaApi env net) clk st)) = Api.MSG_TIMEOUT.
Proof.
  intros Hcan Hmode Hfire. rewrite handleSubmit_run by exact Hcan. simpl.
  unfold askViaApi. apply canSubmit_true in Hcan. destruct Hcan as [Hq _].
  rewrite ApiFacts.askQuestion_timed_out by assumption. reflexivity.
Qed.

(** C1 does not hold of [handleSubmit]: submitting over a history of 200
    entries leaves 201 entries, the new one first and the oldest one
    still last. *)
Theorem handleSubmit_exceeds_cap :
  let before := Sample.typed Sample.fullHistory in
  let after := snd (handleSubmit Sample.answering Sample.clk before) in
  length (history before) = HISTORY_CAP
  /\ length (history after) = S HISTORY_CAP
  /\ (HistoryEntry.question <$> head (history after)) = Some (lit "What is AI?")
  /\ last (history after) = Some (Sample.numbered 1).
Proof. vm_compute. repeat split. Qed.

(** C2: deleting by an id present in the history leaves no entry with
    that id, keeps every entry with another id, and keeps them in their
    order; when the ids are pairwise distinct, as the data model has
    them, the history is split around the one entry with that id and the
    result is the two parts put together. *)
Theorem deleteEntry_removes_exactly entryId st :
  entryId ∈ (HistoryEntry.id <$> history st) ->
  (entryId ∉ (HistoryEntry.id <$> history (deleteEntry entryId st)))
  /\ (forall e, e ∈ history (deleteEntry entryId st)
                <-> e ∈ history st /\ HistoryEntry.id e <> entryId)
  /\ sublist (history (deleteEntry entryId st)) (history st)
  /\ (NoDup (HistoryEntry.id <$> history st) ->
      exists l1 e l2,
        history st = l1 ++ e :: l2 /\ HistoryEntry.id e = entryId
        /\ history (deleteEntry entryId st) = l1 ++ l2).
Proof.
  intros Hin. simpl. split; [|split; [|split]].
  - intros (e & He & Hmem)%list_elem_of_fmap.
    apply list_elem_of_filter in Hmem. destruct Hmem as [Hne _]. congruence.
  - intros e. rewrite list_elem_of_filter. tauto.
  - apply sublist_filter.
  - intros Hnodup.
    apply list_elem_of_fmap in Hin. destruct Hin as (e & He & Hmem).
    apply list_elem_of_split in Hmem. destruct Hmem as (l1 & l2 & Hsplit).
    exists l1, e, l2. split; [exact Hsplit|]. split; [now symmetry|].
    rewrite Hsplit in Hnodup |- *.
    rewrite fmap_app, fmap_cons, NoDup_app in Hnodup.
    destruct Hnodup as (_ & Hcross & Hright).
    apply NoDup_cons in Hright. destruct Hright as [Hl2 _].
    assert (Hl1 : entryId ∉ (HistoryEntry.id <$> l1)).
    { intros Hbad. apply (Hcross _ Hbad). rewrite He. apply list_elem_of_here. }
    rewrite <- He in Hl2.
    rewrite filter_app, filter_cons_False by (intros Hne; now apply Hne).
    now rewrite !filter_id_fresh.
Qed.

Lemma deleteEntry_removes_exactly_witness :
  history (deleteEntry (lit "2") (Sample.typed Sample.twoEntries))
  = [Sample.numbered 1].
Proof.
  destruct (deleteEntry_removes_exactly (lit "2") (Sample.typed Sample.twoEntries))
    as (_ & _ & _ & Hsplit).
  - vm_compute. apply list_elem_of_here.
  - destruct Hsplit as (l1 & e & l2 & Hh & He & ->).
    + vm_compute. apply NoDup_cons. split; [|apply NoDup_singleton].
      rewrite list_elem_of_singleton. discriminate.
    + destruct l1 as [|e1 l1]; simpl in Hh.
      * now injection Hh as _ <-.
      * injection Hh as <- Hh. destruct l1 as [|e2 l1]; simpl in Hh.
        -- injection Hh as <- _. vm_compute in He. discriminate He.
        -- injection Hh as _ Hh. destruct l1; discriminate Hh.
Defined.



(** C9: whenever [handleSubmit] calls [askQuestion], the argument is the
    trimmed content of the question field: it is not empty and has no
    white space at either end; the entry created on success stores that
    same trimmed string. A question field holding only white space is
    never submitted, neither by [handleSubmit] nor by [retry]. *)
Theorem submitted_question_trimmed ask clk st :
  (forall q,
      fst (handleSubmit ask clk st) = Some q ->
      q = trim (question st) /\ q <> []
      /\ (forall c rest, q = c :: rest -> isWhiteSpace c = false)
      /\ (forall init c, q = init ++ [c] -> isWhiteSpace c = false)
      /\ (forall response,
             ask q = Resolved response ->
             exists e,
               history (snd (handleSubmit ask clk st)) = e :: history st
               /\ HistoryEntry.question e = q /\ HistoryEntry.answer e = response))
  /\ (forallb isWhiteSpace (question st) = true ->
      handleSubmit ask clk st = (None, st) /\ retry ask clk st = (None, st)).
Proof.
  split.
  - intros q Hq. destruct (canSubmit st) eqn:Hcan.
    + rewrite handleSubmit_run in Hq |- * by exact Hcan. simpl in Hq |- *.
      injection Hq as <-. apply canSubmit_true in Hcan. destruct Hcan as [Hne _].
      split; [reflexivity|]. split; [exact Hne|].
      split; [intros c rest; apply trim_head|].
      split; [intros init c; apply trim_last|].
      intros response ->. eexists. simpl. repeat split.
    + rewrite handleSubmit_blocked in Hq by exact Hcan. discriminate Hq.
  - intros Hws. apply trim_all_ws in Hws.
    assert (Hcan : canSubmit st = false) by (unfold canSubmit; now rewrite Hws).
    split; [now apply handleSubmit_blocked|].
    unfold retry. now rewrite Hws.
Qed.

Lemma submitted_question_trimmed_witness :
  fst (handleSubmit Sample.answering Sample.clk (Sample.typed Sample.twoEntries))
  = Some (lit "What is AI?")
  /\ handleSubmit Sample.answering Sample.clk
       (setQuestion (lit "   ") (initialState Sample.twoEntries))
     = (None, setQuestion (lit "   ") (initialState Sample.twoEntries)).
Proof.
  split.
  - destruct (submitted_question_trimmed Sample.answering Sample.clk
                (Sample.typed Sample.twoEntries)) as [Hsub _].
    destruct (Hsub (lit "What is AI?") eq_refl) as (Hq & _).
    rewrite Hq. reflexivity.
  - destruct (submitted_question_trimmed Sample.answering Sample.clk
                (setQuestion (lit "   ") (initialState Sample.twoEntries)))
      as [_ Hblank].
    exact (proj1 (Hblank eq_refl)).
Defined.

(** C10: [clearHistory] acts only when the confirmation dialog is
    accepted: it then empties the history, the displayed answer and the
    error message and leaves the other fields alone; when the dialog is
    declined the state is unchanged. *)
Theorem clearHistory_gated st :
  (history (clearHistory true st) = []
   /\ answer (clearHistory true st) = []
   /\ error (clearHistory true st) = []
   /\ question (clearHistory true st) = question st
   /\ loading (clearHistory true st) = loading st
   /\ copied (clearHistory true st) = copied st)
  /\ clearHistory false st = st.
Proof. repeat split. Qed.

End AppSpec.

(* ===================================================================== *)
(** ** More on strings *)
(* ===================================================================== *)

Module JSMore.
Import JSFacts.

Lemma startsWith_inv p s : startsWith p s = true -> exists post, s = p ++ post.
Proof.
  revert s. induction p as [|a p IH]; intros s H.
  - exists s. reflexivity.
  - destruct s as [|b s]; [discriminate H|]. simpl in H.
    apply andb_true_iff in H. destruct H as [Hab Hps].
    apply N.eqb_eq in Hab. subst b.
    destruct (IH _ Hps) as [post ->]. exists post. reflexivity.
Qed.

(** [includes] finds exactly the substrings. *)
Lemma includes_inv n h :
  includes n h = true -> exists pre post, h = pre ++ n ++ post.
Proof.
  induction h as [|c h IH]; simpl; intros H.
  - rewrite orb_false_r in H. destruct (startsWith_inv _ _ H) as [post Hp].
    exists [], post. exact Hp.
  - apply orb_true_iff in H. destruct H as [H|H].
    + destruct (startsWith_inv _ _ H) as [post Hp]. exists [], post. exact Hp.
    + destruct (IH H) as (pre & post & ->). exists (c :: pre), post. reflexivity.
Qed.

Lemma includes_within n x pre post :
  includes n x = true -> includes n (pre ++ x ++ post) = true.
Proof.
  intros H. destruct (includes_inv _ _ H) as (a & b & ->).
  rewrite <- !app_assoc, app_assoc. apply includes_app.
Qed.

Lemma includes_ci_within n x pre post :
  includes_ci n x = true -> includes_ci n (pre ++ x ++ post) = true.
Proof.
  unfold includes_ci. intros H. rewrite !map_app. now apply includes_within.
Qed.

Lemma trimStart_fixed s :
  (forall c rest, s = c :: rest -> isWhiteSpace c = false) -> trimStart s = s.
Proof.
  destruct s as [|c s]; [reflexivity|]. intros H. simpl.
  now rewrite (H c s eq_refl).
Qed.

Lemma trimStart_idem s : trimStart (trimStart s) = trimStart s.
Proof.
  apply trimStart_fixed. intros c rest H. exact (trimStart_head _ _ _ H).
Qed.

(** Trimming twice is trimming once. *)
Lemma trim_idem s : trim (trim s) = trim s.
Proof.
  assert (Hstart : trimStart (trim s) = trim s).
  { apply trimStart_fixed. intros c rest H.
    unfold trim in H.
    destruct (AppFacts.trimEnd_prefix (trimStart s)) as (ws & Heq).
    rewrite H in Heq. simpl in Heq. exact (trimStart_head _ _ _ Heq). }
  unfold trim at 1. rewrite Hstart. unfold trim, trimEnd.
  rewrite rev_involutive, trimStart_idem. reflexivity.
Qed.

Lemma dropSlashes_slashes slashes s :
  Forall (fun c => c = 47) slashes -> dropSlashes (slashes ++ s) = dropSlashes s.
Proof.
  induction 1 as [|c slashes Hc _ IH]; [reflexivity|].
  simpl. subst c. exact IH.
Qed.

Lemma dropSlashes_head s c rest : dropSlashes s = c :: rest -> c <> 47.
Proof.
  induction s as [|d s IH]; simpl; [discriminate|].
  destruct (d =? 47) eqn:Hd; [exact IH|].
  intros [= <- _]. now apply N.eqb_neq.
Qed.

End JSMore.

(* ===================================================================== *)
(** ** More on the answer-fetch client *)
(* ===================================================================== *)

Module ApiExtra.
Import Api Spec JSFacts JSMore ApiFacts.

Lemma abortPattern_within x pre post :
  abortPattern x = true -> abortPattern (pre ++ x ++ post) = true.
Proof.
  unfold abortPattern. rewrite !orb_true_iff.
  intros [[H|H]|H]; [left; left | left; right | right];
    now apply includes_ci_within.
Qed.

(** X1. In remote mode an answer is only ever produced from a response that
    arrived before the timer fired, has an ok status and carries that
    answer in the string field [answer] of its JSON body. *)
Theorem askQuestion_resolves_only_on_ok env net q a :
  isMock env = false ->
  askQuestion env net (VString q) = Resolved a ->
  exists t res data,
    net (buildRequest (API_BASE env) q) = FetchResolves t res
    /\ t < TIMEOUT_MS /\ ok res = true
    /\ body_json res = inr data
    /\ getProp data (lit "answer") = VString a.
Proof.
  intros Hmode. destruct q as [|c q]; [discriminate|].
  rewrite askQuestion_string by discriminate. rewrite Hmode.
  unfold askQuestionReal, tryRequest, awaitFetch.
  destruct (net _) as [t res|t err|]; simpl;
    try (destruct (TIMEOUT_MS <=? t); discriminate); try discriminate.
  destruct (TIMEOUT_MS <=? t) eqn:Ht; [discriminate|].
  apply N.leb_gt in Ht. unfold handleResponse.
  destruct (ok res) eqn:Hok; simpl; [|discriminate].
  destruct (body_json res) as [err|data] eqn:Hbody; [discriminate|].
  destruct (truthy data); simpl; [|discriminate].
  destruct (getProp data (lit "answer")) eqn:Hans; try discriminate.
  intros [= <-]. exists t, res, data. repeat split; assumption.
Qed.

Lemma askQuestion_resolves_only_on_ok_witness :
  exists t res data,
    Sample.respondWith Sample.res200
      (buildRequest (API_BASE Sample.remoteEnv) (lit "What is AI?"))
    = FetchResolves t res
    /\ t < TIMEOUT_MS /\ ok res = true
    /\ body_json res = inr data
    /\ getProp data (lit "answer") = VString (lit "42").
Proof.
  apply (askQuestion_resolves_only_on_ok Sample.remoteEnv
           (Sample.respondWith Sample.res200) (lit "What is AI?") (lit "42")).
  - reflexivity.
  - vm_compute. reflexivity.
Defined.

(** X2. A [fetch] that fails in time with a [TypeError] (offline, DNS, CORS)
    is reported as the network error, provided the error is not named
    [AbortError] and its message has none of the words of the abort
    pattern. *)
Theorem askQuestion_network_error env net q t name m :
  isMock env = false -> q <> [] ->
  net (buildRequest (API_BASE env) q) = FetchRejects t (ThrownError ClsTypeError name m) ->
  t < TIMEOUT_MS ->
  name <> lit "AbortError" -> abortPattern m = false ->
  askQuestion env net (VString q) = Rejected (mkError MSG_NETWORK).
Proof.
  intros Hmode Hq Hnet Ht Hname Hm.
  rewrite askQuestion_string by exact Hq. rewrite Hmode.
  unfold askQuestionReal, tryRequest, awaitFetch. rewrite Hnet. simpl.
  apply N.leb_gt in Ht. rewrite Ht.
  unfold toUserFriendlyError. simpl hasAbortName. simpl messageOf. simpl default.
  apply str_eqb_neq in Hname. rewrite Hname, Hm. reflexivity.
Qed.

(** X3. A response that is not ok and whose status text or body message
    holds one of the words of the abort pattern (in any letter case) is
    reported as a timeout although the timer has not fired. *)
Theorem askQuestion_http_error_taken_for_timeout env net q t res :
  isMock env = false -> q <> [] ->
  net (buildRequest (API_BASE env) q) = FetchResolves t res ->
  timerFires (FetchResolves t res) = false ->
  ok res = false ->
  abortPattern (statusText res) = true \/ abortPattern (serverMessage res) = true ->
  askQuestion env net (VString q) = Rejected (mkError MSG_TIMEOUT).
Proof.
  intros Hmode Hq Hnet Ht Hok Hpat.
  rewrite askQuestion_string by exact Hq. rewrite Hmode.
  unfold askQuestionReal.
  rewrite (tryRequest_http_error _ _ _ _ _ Hnet Ht Hok).
  assert (Hmsg : abortPattern (httpErrorMessage res) = true).
  { unfold httpErrorMessage. destruct Hpat as [H|H].
    - rewrite <- !app_assoc.
      rewrite (app_assoc (lit "Request failed: ")), (app_assoc _ (lit " ")).
      now apply abortPattern_within.
    - destruct (str_eqb (serverMessage res) []) eqn:E.
      + apply str_eqb_eq in E. rewrite E in H. vm_compute in H. discriminate H.
      + rewrite (app_assoc _ (lit " - ")).
        rewrite <- (app_nil_r (_ ++ serverMessage res)), <- app_assoc.
        now apply abortPattern_within. }
  unfold toUserFriendlyError, mkError. simpl messageOf. simpl default.
  rewrite Hmsg, orb_true_r. reflexivity.
Qed.

Lemma askQuestion_network_error_witness :
  askQuestion Sample.remoteEnv Scenario.offline (VString (lit "What is AI?"))
  = Rejected (mkError MSG_NETWORK).
Proof.
  apply (askQuestion_network_error Sample.remoteEnv Scenario.offline
           (lit "What is AI?") 15 (lit "TypeError") (lit "Failed to fetch")).
  - reflexivity.
  - discriminate.
  - reflexivity.
  - reflexivity.
  - vm_compute. discriminate.
  - vm_compute. reflexivity.
Defined.

Lemma askQuestion_http_error_taken_for_timeout_witness :
  askQuestion Sample.remoteEnv (Sample.respondWith Scenario.res504)
              (VString (lit "What is AI?"))
  = Rejected (mkError MSG_TIMEOUT).
Proof.
  apply (askQuestion_http_error_taken_for_timeout Sample.remoteEnv
           (Sample.respondWith Scenario.res504) (lit "What is AI?") 120 Scenario.res504).
  - reflexivity.
  - discriminate.
  - reflexivity.
  - reflexivity.
  - reflexivity.
  - left. vm_compute. reflexivity.
Defined.

(** X4. The endpoint does not depend on the slashes that end the configured
    base: they are all dropped before [/ask] is appended, so the part of
    the address before [/ask] never ends with a slash. *)
Theorem buildRequest_url_slashes base slashes q :
  Forall (fun c => c = 47) slashes ->
  req_url (buildRequest (base ++ slashes) q) = req_url (buildRequest base q)
  /\ exists stem,
       req_url (buildRequest base q) = stem ++ lit "/ask"
       /\ forall init, stem <> init ++ [47].
Proof.
  intros Hs. split.
  - unfold buildRequest, stripTrailingSlashes. simpl. f_equal. f_equal.
    rewrite rev_app_distr. apply dropSlashes_slashes.
    now apply List.Forall_rev.
  - exists (stripTrailingSlashes base). split; [reflexivity|].
    unfold stripTrailingSlashes. intros init H.
    apply (f_equal (@rev _)) in H. rewrite rev_involutive, rev_app_distr in H.
    simpl in H. exact (dropSlashes_head _ _ _ H eq_refl).
Qed.

Lemma buildRequest_url_slashes_witness :
  req_url (buildRequest (lit "https://api.example.com" ++ lit "//") (lit "hi"))
  = req_url (buildRequest (lit "https://api.example.com") (lit "hi")).
Proof.
  apply (buildRequest_url_slashes (lit "https://api.example.com") (lit "//") (lit "hi")).
  repeat constructor.
Defined.

(** X5. The mock answers of two different questions are different. *)
Theorem mockAnswer_injective q1 q2 : mockAnswer q1 = mockAnswer q2 -> q1 = q2.
Proof.
  unfold mockAnswer. rewrite !app_assoc. intros H.
  apply app_inv_tail in H. apply app_inv_tail in H. now apply app_inv_head in H.
Qed.

Lemma mockAnswer_injective_witness : lit "ab" = lit "ab".
Proof. apply (mockAnswer_injective (lit "ab") (lit "ab")). reflexivity. Defined.

(** X6. The earlier client rejects a response that is not ok with an error
    whose message holds the status code, the status text and the raw
    text of the body. *)
Theorem legacy_http_error_surfaces base net q t res :
  net (buildRequest base q) = FetchResolves t res -> ok res = false ->
  exists m,
    ApiLegacy.askQuestionReal base net q = Some (Rejected (mkError m))
    /\ includes (decimal (status res)) m = true
    /\ includes (statusText res) m = true
    /\ includes (ApiLegacy.errorText res) m = true.
Proof.
  intros Hnet Hok. exists (ApiLegacy.httpErrorMessage res). split.
  - unfold ApiLegacy.askQuestionReal, ApiLegacy.handleResponse.
    rewrite Hnet, Hok. reflexivity.
  - unfold ApiLegacy.httpErrorMessage. repeat split.
    + apply includes_app.
    + rewrite (app_assoc (lit "Request failed: ")), (app_assoc _ (lit " ")).
      apply includes_app.
    + destruct (str_eqb (ApiLegacy.errorText res) []) eqn:E.
      * apply str_eqb_eq in E. rewrite E. apply includes_nil.
      * rewrite !app_assoc. apply includes_suffix.
Qed.

Lemma legacy_http_error_surfaces_witness :
  exists m,
    ApiLegacy.askQuestionReal (API_BASE Sample.remoteEnv)
      (Sample.respondWith Sample.res500) (lit "What is AI?")
    = Some (Rejected (mkError m))
    /\ includes (lit "500") m = true
    /\ includes (lit "Internal Server Error") m = true
    /\ includes (ApiLegacy.errorText Sample.res500) m = true.
Proof.
  apply (legacy_http_error_surfaces (API_BASE Sample.remoteEnv)
           (Sample.respondWith Sample.res500) (lit "What is AI?") 120 Sample.res500);
    reflexivity.
Defined.

End ApiExtra.

(* ===================================================================== *)
(** ** More on the persisted-value hook *)
(* ===================================================================== *)

Module HookExtra.
Import Hook HookRun.

Section facts.
Context {V : Type} `{EqDecision V}.
Variable parse : jsstring -> option V.
Variable stringify : V -> option jsstring.
Variable key : jsstring.

Lemma persist_flags v (ls : localStorage) :
  getItem_throws (persist stringify key v ls) = getItem_throws ls
  /\ setItem_throws (persist stringify key v ls) = setItem_throws ls.
Proof.
  unfold persist. destruct (stringify v) as [s|]; [|now split].
  destruct (setItem_throws ls key s); now split.
Qed.

Lemma setValue_storage a (h : hook (V := V)) :
  storage (setValue stringify key a h) = storage h
  \/ storage (setValue stringify key a h)
     = persist stringify key (value (setValue stringify key a h)) (storage h).
Proof.
  unfold setValue. case_decide; [now left|now right].
Qed.

Lemma setValue_inSync a (h : hook (V := V)) :
  (forall v, is_Some (stringify v)) ->
  (forall k s, setItem_throws (storage h) k s = false) ->
  inSync stringify key h -> inSync stringify key (setValue stringify key a h).
Proof.
  intros Htotal Hwrite Hsync. unfold setValue. case_decide; [exact Hsync|].
  set (next := match a with SetTo v => v | SetBy f => f (value h) end).
  destruct (Htotal next) as [s Hs]. exists s. simpl. split; [exact Hs|].
  now apply HookSpec.persist_written.
Qed.

Lemma setValue_writable a (h : hook (V := V)) :
  (forall k s, setItem_throws (storage h) k s = false) ->
  forall k s, setItem_throws (storage (setValue stringify key a h)) k s = false.
Proof.
  intros Hwrite k s.
  destruct (setValue_storage a h) as [-> | ->]; [apply Hwrite|].
  rewrite (proj2 (persist_flags _ _)). apply Hwrite.
Qed.

End facts.

(** X8. What was written by the effect is read back by the initialiser:
    when the value serialises, the serialisation parses back to it and
    the storage can be written and read, a reload starts from that
    value and not from the default. *)
Theorem persist_readInitial_roundtrip {V : Type}
    (parse : jsstring -> option V) (stringify : V -> option jsstring)
    (key : jsstring) (v initialValue : V) (s : jsstring) (ls : localStorage) :
  stringify v = Some s -> parse s = Some v ->
  setItem_throws ls key s = false -> getItem_throws ls = false ->
  readInitial parse key initialValue (persist stringify key v ls) = v.
Proof.
  intros Hs Hp Hw Hr. unfold readInitial.
  rewrite (proj1 (persist_flags stringify key v ls)), Hr.
  rewrite (HookSpec.persist_written stringify key v s ls Hs Hw). simpl.
  now rewrite Hp.
Qed.

Lemma persist_readInitial_roundtrip_witness :
  readInitial Scenario.parseFlag (lit "flag") false
    (persist Scenario.stringifyFlag (lit "flag") true Sample.emptyStorage)
  = true.
Proof.
  apply (persist_readInitial_roundtrip Scenario.parseFlag Scenario.stringifyFlag
           (lit "flag") true false (lit "true") Sample.emptyStorage);
    reflexivity.
Defined.

(** X9. Whatever sequence of updates is applied, the hook never writes,
    removes or changes an item stored under another key. *)
Theorem setValues_other_keys {V : Type} `{EqDecision V}
    (stringify : V -> option jsstring) (key k : jsstring)
    (acts : list (action (V := V))) (h : hook (V := V)) :
  k <> key ->
  items (storage (setValues stringify key acts h)) !! k = items (storage h) !! k.
Proof.
  intros Hk. revert h. induction acts as [|a acts IH]; intros h; [reflexivity|].
  unfold setValues in *. simpl. rewrite IH.
  destruct (setValue_storage stringify key a h) as [-> | ->]; [reflexivity|].
  now apply HookSpec.persist_other.
Qed.

Lemma setValues_other_keys_witness :
  items (Hook.storage (setValues Scenario.stringifyFlag (lit "flag")
                         [SetTo true; SetBy negb; SetTo true] Scenario.flagHook))
    !! lit "qa_history"
  = items (Hook.storage Scenario.flagHook) !! lit "qa_history".
Proof.
  apply (setValues_other_keys Scenario.stringifyFlag (lit "flag") (lit "qa_history")
           [SetTo true; SetBy negb; SetTo true] Scenario.flagHook).
  vm_compute. discriminate.
Defined.

(** X10. When every value serialises and the storage accepts every write,
    the item under the key is the serialisation of the current value
    after mounting and after any sequence of updates. *)
Theorem setValues_inSync {V : Type} `{EqDecision V}
    (parse : jsstring -> option V) (stringify : V -> option jsstring)
    (key : jsstring) (initialValue : V) (ls : localStorage)
    (acts : list (action (V := V))) :
  (forall v, is_Some (stringify v)) ->
  (forall k s, setItem_throws ls k s = false) ->
  inSync stringify key
    (setValues stringify key acts (mount parse stringify key initialValue ls)).
Proof.
  intros Htotal Hwrite.
  assert (Hstart : inSync stringify key (mount parse stringify key initialValue ls)
                   /\ forall k s,
                       setItem_throws
                         (storage (mount parse stringify key initialValue ls)) k s
                       = false).
  { unfold mount. simpl. split.
    - destruct (Htotal (readInitial parse key initialValue ls)) as [s Hs].
      exists s. simpl. split; [exact Hs|].
      apply HookSpec.persist_written; [exact Hs|apply Hwrite].
    - intros k s. rewrite (proj2 (persist_flags _ _ _ _)). apply Hwrite. }
  revert Hstart. generalize (mount parse stringify key initialValue ls).
  induction acts as [|a acts IH]; intros h [Hsync Hw]; [exact Hsync|].
  unfold setValues in *. simpl. apply IH. split.
  - now apply setValue_inSync.
  - now apply setValue_writable.
Qed.

Lemma setValues_inSync_witness :
  inSync Scenario.stringifyFlag (lit "flag")
    (setValues Scenario.stringifyFlag (lit "flag") [SetBy negb; SetTo false; SetBy negb]
       (mount Scenario.parseFlag Scenario.stringifyFlag (lit "flag") false
              Sample.emptyStorage)).
Proof.
  apply (setValues_inSync Scenario.parseFlag Scenario.stringifyFlag (lit "flag")
           false Sample.emptyStorage [SetBy negb; SetTo false; SetBy negb]).
  - intros v. eexists. reflexivity.
  - intros k s. reflexivity.
Defined.

(** X11. Reloading the page does not change the value: mounting again on the
    storage left by a first mount yields the value of the first mount,
    whether or not the write of the first mount went through, provided
    that what serialises parses back to itself. *)
Theorem mount_reload_stable {V : Type}
    (parse : jsstring -> option V) (stringify : V -> option jsstring)
    (key : jsstring) (initialValue : V) (ls : localStorage) :
  (forall v s, stringify v = Some s -> parse s = Some v) ->
  value (mount parse stringify key initialValue
           (storage (mount parse stringify key initialValue ls)))
  = value (mount parse stringify key initialValue ls).
Proof.
  intros Hround. unfold mount. simpl.
  set (v := readInitial parse key initialValue ls).
  unfold readInitial at 1. rewrite (proj1 (persist_flags stringify key v ls)).
  destruct (getItem_throws ls) eqn:Hr.
  - subst v. unfold readInitial. now rewrite Hr.
  - unfold persist. destruct (stringify v) as [s|] eqn:Hs.
    + destruct (setItem_throws ls key s).
      * subst v. unfold readInitial. now rewrite Hr.
      * simpl. rewrite lookup_insert_eq. simpl. now rewrite (Hround _ _ Hs).
    + subst v. unfold readInitial. now rewrite Hr.
Qed.

Lemma mount_reload_stable_witness :
  value (mount Scenario.parseFlag Scenario.stringifyFlag (lit "flag") true
           (storage (mount Scenario.parseFlag Scenario.stringifyFlag (lit "flag") true
                           Sample.emptyStorage)))
  = value (mount Scenario.parseFlag Scenario.stringifyFlag (lit "flag") true
                 Sample.emptyStorage).
Proof.
  apply (mount_reload_stable Scenario.parseFlag Scenario.stringifyFlag (lit "flag")
           true Sample.emptyStorage).
  intros [] s [= <-]; reflexivity.
Defined.

(** X12. The hook, mounted on [qa_history] with the default [[]], starts from
    the same history as the initialiser it replaced, given that the
    empty string is not valid JSON. *)
Theorem legacyInitHistory_agrees
    (parse : jsstring -> option (list HistoryEntry.t)) (ls : localStorage) :
  parse [] = None ->
  legacyInitHistory parse ls = readInitial parse QA_HISTORY [] ls.
Proof.
  intros Hempty. unfold legacyInitHistory, readInitial.
  destruct (getItem_throws ls); [reflexivity|].
  destruct (items ls !! QA_HISTORY) as [stored|]; [|reflexivity].
  destruct (str_eqb stored []) eqn:E; [|reflexivity].
  apply JSFacts.str_eqb_eq in E. subst stored. now rewrite Hempty.
Qed.

Lemma legacyInitHistory_agrees_witness :
  legacyInitHistory Scenario.parseEmptyArray Scenario.corruptStorage
  = readInitial Scenario.parseEmptyArray QA_HISTORY [] Scenario.corruptStorage.
Proof.
  apply (legacyInitHistory_agrees Scenario.parseEmptyArray Scenario.corruptStorage).
  reflexivity.
Defined.

End HookExtra.

(* ===================================================================== *)
(** ** More on the application view *)
(* ===================================================================== *)

Module ViewFacts.
Import App View JSFacts JSMore AppFacts.

Lemma nonEmpty_true s : nonEmpty s = true <-> s <> [].
Proof. unfold nonEmpty. rewrite negb_true_iff. apply str_eqb_neq. Qed.

Lemma nonEmpty_false s : nonEmpty s = false <-> s = [].
Proof. unfold nonEmpty. rewrite negb_false_iff. apply str_eqb_eq. Qed.

Lemma submitSettle_loading c res clk st : loading (submitSettle c res clk st) = false.
Proof. destruct res; reflexivity. Qed.

Lemma submitSettle_copied c res clk st :
  copied (submitSettle c res clk st) = copied st.
Proof. destruct res; reflexivity. Qed.

Lemma loadFromHistory_frame entryId st :
  loading (loadFromHistory entryId st) = loading st
  /\ history (loadFromHistory entryId st) = history st
  /\ copied (loadFromHistory entryId st) = copied st.
Proof. unfold loadFromHistory. destruct (findEntry _ _); repeat split. Qed.

Lemma clearHistory_frame confirmed st :
  loading (clearHistory confirmed st) = loading st
  /\ copied (clearHistory confirmed st) = copied st
  /\ question (clearHistory confirmed st) = question st.
Proof. destruct confirmed; repeat split. Qed.

Lemma copyAnswer_frame env p :
  loading (ui (copyAnswer env p)) = loading (ui p)
  /\ inflight (copyAnswer env p) = inflight p
  /\ history (ui (copyAnswer env p)) = history (ui p)
  /\ question (ui (copyAnswer env p)) = question (ui p)
  /\ answer (ui (copyAnswer env p)) = answer (ui p)
  /\ error (ui (copyAnswer env p)) = error (ui p).
Proof.
  unfold copyAnswer. destruct (negb _); [repeat split|].
  destruct env; repeat split.
Qed.

(** Starting a submission from the page. *)
Lemma startSubmit_cases p :
  (canSubmit (ui p) = false /\ startSubmit p = p)
  \/ (canSubmit (ui p) = true
      /\ startSubmit p
         = {| ui := {| question := question (ui p); answer := []; loading := true;
                       error := []; history := history (ui p);
                       copied := copied (ui p) |};
              inflight := inflight p ++ [question (ui p)];
              clipboard := clipboard p; copiedTimer := copiedTimer p |}).
Proof.
  unfold startSubmit. destruct (canSubmit (ui p)) eqn:Hcan.
  - right. split; [reflexivity|]. now rewrite submitStart_Some.
  - left. split; [reflexivity|]. now rewrite submitStart_None.
Qed.

(** The three events that may start a submission either leave the page
    alone or start one. *)
Lemma step_submit_cases p ev :
  match ev with KeyDown _ _ | ClickAsk | ClickRetry => True | _ => False end ->
  step p ev = p \/ step p ev = startSubmit p.
Proof.
  destruct ev; try contradiction; intros _; simpl.
  - destruct (snd (onTextareaKeyDown isMac e (ui p))); [now right|now left].
  - destruct (submitDisabled (ui p)); [now left|now right].
  - destruct (negb (showAlert (ui p)) || retryDisabled (ui p)); [now left|].
    destruct (str_eqb (trim (question (ui p))) [] || loading (ui p));
      [now left|now right].
Qed.

Lemma startSubmit_oneAtATime p : oneAtATime p -> oneAtATime (startSubmit p).
Proof.
  intros Hinv. destruct (startSubmit_cases p) as [[_ ->] | [Hcan ->]];
    [exact Hinv|].
  apply canSubmit_true in Hcan. destruct Hcan as [_ Hload].
  destruct Hinv as [[Hl _] | [_ Hnone]]; [congruence|].
  left. simpl. rewrite Hnone. split; reflexivity.
Qed.

Lemma step_oneAtATime p ev : oneAtATime p -> oneAtATime (step p ev).
Proof.
  intros Hinv. destruct ev as [text|isMac e| | |i res clk|entryId|confirmed|env|].
  - exact Hinv.
  - destruct (step_submit_cases p (KeyDown isMac e) I) as [-> | ->];
      [exact Hinv|now apply startSubmit_oneAtATime].
  - destruct (step_submit_cases p ClickAsk I) as [-> | ->];
      [exact Hinv|now apply startSubmit_oneAtATime].
  - destruct (step_submit_cases p ClickRetry I) as [-> | ->];
      [exact Hinv|now apply startSubmit_oneAtATime].
  - simpl. destruct (inflight p !! i) as [captured|] eqn:Hi; [|exact Hinv].
    right. simpl. split; [apply submitSettle_loading|].
    destruct Hinv as [[_ Hlen] | [_ Hnone]].
    + destruct (inflight p) as [|c [|c' rest]]; try discriminate Hlen.
      destruct i; [reflexivity|discriminate Hi].
    + rewrite Hnone in Hi. discriminate Hi.
  - unfold oneAtATime. simpl.
    now rewrite (proj1 (loadFromHistory_frame entryId (ui p))).
  - simpl. destruct (clearDisabled (ui p)); [exact Hinv|].
    unfold oneAtATime. simpl.
    now rewrite (proj1 (clearHistory_frame confirmed (ui p))).
  - simpl. destruct (negb (showAnswer (ui p)) || copyDisabled (ui p)); [exact Hinv|].
    unfold oneAtATime.
    destruct (copyAnswer_frame env p) as (-> & -> & _). exact Hinv.
  - simpl. destruct (copiedTimer p); exact Hinv.
Qed.

(** The history after one event. *)
Lemma step_history p ev :
  history (ui (step p ev)) = history (ui p)
  \/ (exists i captured response clk,
         ev = Settle i (Resolved response) clk
         /\ inflight p !! i = Some captured
         /\ history (ui (step p ev))
            = makeEntry captured response clk :: history (ui p))
  \/ (ev = ClickClear true /\ history (ui (step p ev)) = []).
Proof.
  destruct ev as [text|isMac e| | |i res clk|entryId|confirmed|env|].
  - now left.
  - left. destruct (step_submit_cases p (KeyDown isMac e) I) as [-> | ->];
      [reflexivity|].
    destruct (startSubmit_cases p) as [[_ ->] | [_ ->]]; reflexivity.
  - left. destruct (step_submit_cases p ClickAsk I) as [-> | ->]; [reflexivity|].
    destruct (startSubmit_cases p) as [[_ ->] | [_ ->]]; reflexivity.
  - left. destruct (step_submit_cases p ClickRetry I) as [-> | ->]; [reflexivity|].
    destruct (startSubmit_cases p) as [[_ ->] | [_ ->]]; reflexivity.
  - simpl. destruct (inflight p !! i) as [captured|] eqn:Hi; [|now left].
    destruct res as [response|err]; [|now left].
    right. left. exists i, captured, response, clk. repeat split. exact Hi.
  - left. simpl. apply loadFromHistory_frame.
  - simpl. destruct (clearDisabled (ui p)); [now left|].
    destruct confirmed; [right; right; now split|now left].
  - left. simpl.
    destruct (negb (showAnswer (ui p)) || copyDisabled (ui p)); [reflexivity|].
    apply copyAnswer_frame.
  - left. simpl. destruct (copiedTimer p); reflexivity.
Qed.

Lemma startSubmit_wellFormed p : wellFormed p -> wellFormed (startSubmit p).
Proof.
  intros [Hh Hf]. destruct (startSubmit_cases p) as [[_ ->] | [Hcan ->]];
    [now split|].
  split; [exact Hh|]. simpl. apply Forall_app. split; [exact Hf|].
  apply Forall_singleton. now apply canSubmit_true in Hcan.
Qed.

Lemma step_wellFormed p ev : wellFormed p -> wellFormed (step p ev).
Proof.
  intros Hwf. destruct ev as [text|isMac e| | |i res clk|entryId|confirmed|env|].
  - exact Hwf.
  - destruct (step_submit_cases p (KeyDown isMac e) I) as [-> | ->];
      [exact Hwf|now apply startSubmit_wellFormed].
  - destruct (step_submit_cases p ClickAsk I) as [-> | ->];
      [exact Hwf|now apply startSubmit_wellFormed].
  - destruct (step_submit_cases p ClickRetry I) as [-> | ->];
      [exact Hwf|now apply startSubmit_wellFormed].
  - simpl. destruct (inflight p !! i) as [captured|] eqn:Hi; [|exact Hwf].
    destruct Hwf as [Hh Hf]. split; simpl.
    + rewrite submitSettle_history. destruct res as [response|err]; [|exact Hh].
      apply Forall_cons. split; [|exact Hh]. simpl. split; [apply trim_idem|].
      exact (Forall_lookup_1 _ _ _ _ Hf Hi).
    + now apply Forall_delete.
  - destruct Hwf as [Hh Hf]. split; [|exact Hf]. simpl.
    now rewrite (proj1 (proj2 (loadFromHistory_frame entryId (ui p)))).
  - simpl. destruct (clearDisabled (ui p)); [exact Hwf|].
    destruct Hwf as [Hh Hf]. split; [|exact Hf]. simpl.
    destruct confirmed; [apply Forall_nil_2|exact Hh].
  - simpl. destruct (negb (showAnswer (ui p)) || copyDisabled (ui p)); [exact Hwf|].
    destruct Hwf as [Hh Hf]. unfold wellFormed.
    destruct (copyAnswer_frame env p) as (_ & -> & -> & _). now split.
  - simpl. destruct (copiedTimer p); exact Hwf.
Qed.

End ViewFacts.

Module ViewSpec.
Import App View JSFacts JSMore AppFacts ViewFacts.

(** X13. In every state exactly one of the three panels of the answer card
    is rendered: the alert, the placeholder, or the answer. *)
Theorem exactly_one_panel st :
  (showAlert st = true /\ showPlaceholder st = false /\ showAnswer st = false)
  \/ (showAlert st = false /\ showPlaceholder st = true /\ showAnswer st = false)
  \/ (showAlert st = false /\ showPlaceholder st = false /\ showAnswer st = true).
Proof.
  unfold showAlert, showPlaceholder, showAnswer.
  destruct (nonEmpty (error st)), (nonEmpty (answer st)), (loading st); simpl; tauto.
Qed.

(** X14. Whatever the user does and however the requests settle, at most one
    request is in flight: [loading] is set exactly while one is, and no
    event starts a second one. *)
Theorem run_oneAtATime stored evs :
  oneAtATime (run (initialPage stored) evs)
  /\ (length (inflight (run (initialPage stored) evs)) <= 1)%nat.
Proof.
  assert (H : oneAtATime (run (initialPage stored) evs)).
  { assert (Hinit : oneAtATime (initialPage stored)) by (right; now split).
    revert Hinit. generalize (initialPage stored).
    induction evs as [|ev evs IH]; intros p Hp; [exact Hp|].
    unfold run in *. simpl. apply IH. now apply step_oneAtATime. }
  split; [exact H|].
  destruct H as [[_ ->] | [_ ->]]; simpl; lia.
Qed.

(** X15. Text typed while the request is in flight: when the request
    succeeds the field is emptied all the same and the entry stores the
    question that was submitted; when it fails the field keeps the new
    text and the history is untouched. *)
Theorem typing_while_loading p text response err clk :
  canSubmit (ui p) = true -> inflight p = [] ->
  (question (ui (run p [ClickAsk; TypeText text; Settle 0 (Resolved response) clk])) = []
   /\ history (ui (run p [ClickAsk; TypeText text; Settle 0 (Resolved response) clk]))
      = makeEntry (question (ui p)) response clk :: history (ui p))
  /\ (question (ui (run p [ClickAsk; TypeText text; Settle 0 (Rejected err) clk])) = text
      /\ history (ui (run p [ClickAsk; TypeText text; Settle 0 (Rejected err) clk]))
         = history (ui p)).
Proof.
  intros Hcan Hnone. unfold run. cbn [foldl].
  assert (Hask : step p ClickAsk
                 = {| ui := {| question := question (ui p); answer := [];
                               loading := true; error := [];
                               history := history (ui p); copied := copied (ui p) |};
                      inflight := [question (ui p)];
                      clipboard := clipboard p; copiedTimer := copiedTimer p |}).
  { simpl. unfold submitDisabled. rewrite Hcan. simpl.
    destruct (startSubmit_cases p) as [[Hno _] | [_ ->]]; [congruence|].
    now rewrite Hnone. }
  rewrite Hask. simpl. repeat split.
Qed.

Lemma typing_while_loading_witness :
  question (ui (run Scenario.typedPage
                  [ClickAsk; TypeText (lit "Another one");
                   Settle 0 (Resolved (lit "Mocked answer response")) Sample.clk]))
  = []
  /\ question (ui (run Scenario.typedPage
                     [ClickAsk; TypeText (lit "Another one");
                      Settle 0 (Rejected (mkError (lit "Network"))) Sample.clk]))
     = lit "Another one".
Proof.
  destruct (typing_while_loading Scenario.typedPage (lit "Another one")
              (lit "Mocked answer response") (mkError (lit "Network")) Sample.clk)
    as [[Hq _] [Hq' _]]; [reflexivity|reflexivity|].
  split; [exact Hq|exact Hq'].
Defined.

(** X16. As long as the user does not confirm a clearing, the history only
    grows at the front: what it held before is still there, in the same
    order, at its end. *)
Theorem run_history_suffix p evs :
  forallb (fun ev => negb (isConfirmedClear ev)) evs = true ->
  history (ui p) `suffix_of` history (ui (run p evs)).
Proof.
  revert p. induction evs as [|ev evs IH]; intros p Hevs; [reflexivity|].
  simpl in Hevs. apply andb_true_iff in Hevs. destruct Hevs as [Hev Hevs].
  unfold run in *. simpl. etransitivity; [|apply IH; exact Hevs].
  destruct (step_history p ev) as [-> | [(i & c & r & clk & _ & _ & ->) | [-> _]]].
  - reflexivity.
  - apply suffix_cons_r. reflexivity.
  - discriminate Hev.
Qed.

Lemma run_history_suffix_witness :
  Sample.twoEntries
  `suffix_of` history (ui (run Scenario.typedPage
                             [ClickAsk; ClickClear false;
                              Settle 0 (Resolved (lit "Mocked answer response"))
                                     Sample.clk])).
Proof.
  apply (run_history_suffix Scenario.typedPage
           [ClickAsk; ClickClear false;
            Settle 0 (Resolved (lit "Mocked answer response")) Sample.clk]).
  reflexivity.
Defined.

(** X17. If the stored history holds only trimmed, non-empty questions, then
    so does the history after any sequence of events: no entry with a
    blank or padded question is ever recorded. *)
Theorem run_wellFormed stored evs :
  Forall (fun e => storedQuestion (HistoryEntry.question e)) stored ->
  Forall (fun e => storedQuestion (HistoryEntry.question e))
         (history (ui (run (initialPage stored) evs))).
Proof.
  intros Hstored.
  assert (Hinit : wellFormed (initialPage stored)) by (split; [exact Hstored|constructor]).
  revert Hinit. generalize (initialPage stored).
  induction evs as [|ev evs IH]; intros p Hp; [exact (proj1 Hp)|].
  unfold run in *. simpl. apply IH. now apply step_wellFormed.
Qed.

Lemma run_wellFormed_witness :
  Forall (fun e => storedQuestion (HistoryEntry.question e))
         (history (ui (run (initialPage [])
                           [TypeText (lit "  What is AI?  "); ClickAsk;
                            Settle 0 (Resolved (lit "Mocked answer response"))
                                   Sample.clk]))).
Proof.
  apply (run_wellFormed []
           [TypeText (lit "  What is AI?  "); ClickAsk;
            Settle 0 (Resolved (lit "Mocked answer response")) Sample.clk]).
  constructor.
Defined.

Lemma findEntry_head e h : findEntry (HistoryEntry.id e) (e :: h) = Some e.
Proof.
  unfold findEntry. cbn [List.find].
  now rewrite (proj2 (str_eqb_eq _ _) eq_refl).
Qed.

(** X18. The entry recorded by a successful submission can be loaded back:
    clicking it restores the trimmed question and the answer, and clears
    the error, even if older entries carry the same id. *)
Theorem load_after_submit ask clk st response :
  canSubmit st = true -> ask (trim (question st)) = Resolved response ->
  let after := snd (handleSubmit ask clk st) in
  let entry := makeEntry (question st) response clk in
  question (loadFromHistory (HistoryEntry.id entry) after) = trim (question st)
  /\ answer (loadFromHistory (HistoryEntry.id entry) after) = response
  /\ error (loadFromHistory (HistoryEntry.id entry) after) = []
  /\ history (loadFromHistory (HistoryEntry.id entry) after) = entry :: history st.
Proof.
  intros Hcan Hask after entry. subst after entry.
  rewrite handleSubmit_run by exact Hcan. cbn [snd]. rewrite Hask.
  unfold loadFromHistory. cbn [submitSettle history].
  rewrite findEntry_head. repeat split.
Qed.

Lemma load_after_submit_witness :
  question
    (loadFromHistory
       (HistoryEntry.id (makeEntry (lit "  What is AI?  ")
                                   (lit "Mocked answer response") Sample.clk))
       (snd (handleSubmit Sample.answering Sample.clk (Sample.typed Sample.twoEntries))))
  = lit "What is AI?".
Proof.
  destruct (load_after_submit Sample.answering Sample.clk
              (Sample.typed Sample.twoEntries) (lit "Mocked answer response"))
    as (Hq & _); [reflexivity|reflexivity|].
  exact Hq.
Defined.

(** X19. Clicking an entry whose stored question is trimmed and not empty,
    then submitting, asks that stored question again; clicking an id the
    history does not hold changes nothing. *)
Theorem load_then_ask ask clk st entryId :
  loading st = false ->
  (forall item,
      findEntry entryId (history st) = Some item ->
      storedQuestion (HistoryEntry.question item) ->
      fst (handleSubmit ask clk (loadFromHistory entryId st))
      = Some (HistoryEntry.question item))
  /\ (findEntry entryId (history st) = None -> loadFromHistory entryId st = st).
Proof.
  intros Hload. split.
  - intros item Hfind [Htrim Hne]. unfold loadFromHistory. rewrite Hfind.
    rewrite handleSubmit_run.
    + simpl. now rewrite Htrim.
    + apply canSubmit_true. simpl. rewrite Htrim. now split.
  - intros Hfind. unfold loadFromHistory. now rewrite Hfind.
Qed.

Lemma load_then_ask_witness :
  fst (handleSubmit Sample.answering Sample.clk
         (loadFromHistory (lit "1") (initialState [Sample.numbered 1])))
  = Some (lit "Question 1").
Proof.
  destruct (load_then_ask Sample.answering Sample.clk
              (initialState [Sample.numbered 1]) (lit "1")) as [Hload _];
    [reflexivity|].
  apply (Hload (Sample.numbered 1)); [reflexivity|].
  split; [reflexivity|discriminate].
Defined.

End ViewSpec.

Module FlowSpec.
Import App View JSFacts JSMore AppFacts ViewFacts.

(** X20. A key press in the textarea is handled (and its default action
    prevented) exactly when the key is Enter and either Shift is up or
    the modifier of the platform is down; a handled key press does what
    a click on the submit button does, any other leaves the page alone. *)
Theorem keyDown_submits_like_click isMac e p :
  (fst (onTextareaKeyDown isMac e (ui p)) = true
   <-> View.key e = lit "Enter"
       /\ ((if isMac then metaKey e else ctrlKey e) = true \/ shiftKey e = false))
  /\ step p (KeyDown isMac e)
     = if fst (onTextareaKeyDown isMac e (ui p)) then step p ClickAsk else p.
Proof.
  split.
  - unfold onTextareaKeyDown.
    destruct (str_eqb (View.key e) (lit "Enter")) eqn:E.
    + apply str_eqb_eq in E.
      destruct (if isMac then metaKey e else ctrlKey e), (shiftKey e); simpl;
        intuition congruence.
    + apply str_eqb_neq in E. simpl. intuition congruence.
  - cbn [step]. unfold onTextareaKeyDown, submitDisabled.
    destruct (str_eqb (View.key e) (lit "Enter")
              && ((if isMac then metaKey e else ctrlKey e) || negb (shiftKey e)));
      [|reflexivity].
    cbn [fst snd]. destruct (canSubmit (ui p)) eqn:Hcan; [|reflexivity].
    rewrite submitStart_Some by exact Hcan. reflexivity.
Qed.

Lemma startSubmit_copyInvariant p : copyInvariant p -> copyInvariant (startSubmit p).
Proof.
  intros Hinv. destruct (startSubmit_cases p) as [[_ ->] | [_ ->]]; exact Hinv.
Qed.

Lemma step_copyInvariant p ev : copyInvariant p -> copyInvariant (step p ev).
Proof.
  intros Hinv. destruct ev as [text|isMac e| | |i res clk|entryId|confirmed|env|].
  - exact Hinv.
  - destruct (step_submit_cases p (KeyDown isMac e) I) as [-> | ->];
      [exact Hinv|now apply startSubmit_copyInvariant].
  - destruct (step_submit_cases p ClickAsk I) as [-> | ->];
      [exact Hinv|now apply startSubmit_copyInvariant].
  - destruct (step_submit_cases p ClickRetry I) as [-> | ->];
      [exact Hinv|now apply startSubmit_copyInvariant].
  - cbn [step]. destruct (inflight p !! i); [|exact Hinv].
    destruct Hinv as [Hc Hs]. split; [|exact Hs].
    cbn [ui copiedTimer]. now rewrite submitSettle_copied.
  - destruct Hinv as [Hc Hs]. split; [|exact Hs]. cbn [step withUi ui copiedTimer].
    now rewrite (proj2 (proj2 (loadFromHistory_frame entryId (ui p)))).
  - cbn [step]. destruct (clearDisabled (ui p)); [exact Hinv|].
    destruct Hinv as [Hc Hs]. split; [|exact Hs]. cbn [withUi ui copiedTimer].
    now rewrite (proj1 (proj2 (clearHistory_frame confirmed (ui p)))).
  - cbn [step]. destruct (negb (showAnswer (ui p)) || copyDisabled (ui p)); [exact Hinv|].
    unfold copyAnswer. destruct (nonEmpty (answer (ui p))) eqn:Ha; [|exact Hinv].
    cbn [negb]. destruct env; try exact Hinv.
    split; [reflexivity|]. cbn [clipboard]. intros s [= <-].
    now apply nonEmpty_true.
  - cbn [step]. destruct (copiedTimer p) eqn:Ht; [|exact Hinv].
    destruct Hinv as [_ Hs]. split; [reflexivity|exact Hs].
Qed.

(** X21. The [Copied!] label is shown exactly while the timer that resets it
    is pending, and the clipboard never receives an empty string. *)
Theorem run_copied_label stored evs :
  copied (ui (run (initialPage stored) evs))
  = copiedTimer (run (initialPage stored) evs)
  /\ forall s, clipboard (run (initialPage stored) evs) = Some s -> s <> [].
Proof.
  assert (Hinit : copyInvariant (initialPage stored))
    by (split; [reflexivity|discriminate]).
  revert Hinit. generalize (initialPage stored).
  induction evs as [|ev evs IH]; intros p Hp; [exact Hp|].
  unfold run in *. cbn [foldl]. apply IH. now apply step_copyInvariant.
Qed.

Lemma errorMessage_mkError m : m <> [] -> errorMessage (mkError m) = m.
Proof.
  intros Hm. unfold errorMessage, mkError. cbn [messageOf].
  apply str_eqb_neq in Hm. now rewrite Hm.
Qed.

(** X22. A failed submission shows the alert with the retry button enabled;
    a retry that succeeds records exactly one entry, for the question
    first submitted, shows its answer and removes the alert. *)
Theorem retry_after_failure ask1 ask2 clk1 clk2 st err response :
  canSubmit st = true ->
  ask1 (trim (question st)) = Rejected err ->
  ask2 (trim (question st)) = Resolved response ->
  let failed := snd (handleSubmit ask1 clk1 st) in
  let retried := snd (retry ask2 clk2 failed) in
  showAlert failed = true /\ retryDisabled failed = false
  /\ history retried = makeEntry (question st) response clk2 :: history st
  /\ answer retried = response /\ error retried = [] /\ question retried = []
  /\ showAlert retried = false.
Proof.
  intros Hcan Hask1 Hask2 failed retried. subst retried failed.
  rewrite handleSubmit_run by exact Hcan. cbn [snd]. rewrite Hask1.
  cbn [submitSettle question answer loading error history copied].
  pose proof Hcan as Hcan'. apply canSubmit_true in Hcan'. destruct Hcan' as [Hq _].
  pose proof Hq as Hq'. apply str_eqb_neq in Hq'.
  split; [apply nonEmpty_true; cbn [error]; apply errorMessage_nonempty|].
  split.
  { unfold retryDisabled, nonEmpty. cbn [question loading]. now rewrite Hq'. }
  unfold retry. cbn [question loading]. rewrite Hq'. cbn [orb].
  rewrite handleSubmit_run.
  - cbn [snd question history copied]. rewrite Hask2.
    cbn [submitSettle question answer error history]. repeat split.
  - apply canSubmit_true. cbn [question loading]. now split.
Qed.

Lemma retry_after_failure_witness :
  history (snd (retry Sample.answering Sample.clk
                  (snd (handleSubmit Sample.failing Sample.clk
                          (Sample.typed Sample.twoEntries)))))
  = makeEntry (lit "  What is AI?  ") (lit "Mocked answer response") Sample.clk
    :: Sample.twoEntries.
Proof.
  destruct (retry_after_failure Sample.failing Sample.answering Sample.clk Sample.clk
              (Sample.typed Sample.twoEntries) (mkError (lit "Network"))
              (lit "Mocked answer response"))
    as (_ & _ & Hh & _); [reflexivity|reflexivity|reflexivity|].
  exact Hh.
Defined.

(** X23. After a successful submission the alert is gone; a non-empty answer
    is displayed with the copy button enabled, while an empty answer
    leaves the placeholder on display although its entry has been added
    to the history. *)
Theorem view_after_success ask clk st response :
  canSubmit st = true -> ask (trim (question st)) = Resolved response ->
  let after := snd (handleSubmit ask clk st) in
  showAlert after = false
  /\ (response <> [] ->
      showAnswer after = true /\ answerText after = response
      /\ copyDisabled after = false)
  /\ (response = [] ->
      showPlaceholder after = true
      /\ length (history after) = S (length (history st))).
Proof.
  intros Hcan Hask after. subst after.
  rewrite handleSubmit_run by exact Hcan. cbn [snd]. rewrite Hask.
  cbn [submitSettle].
  unfold showAlert, showAnswer, showPlaceholder, answerText, copyDisabled.
  cbn [question answer loading error history copied].
  split; [reflexivity|]. split.
  - intros Hne. apply nonEmpty_true in Hne. rewrite Hne. repeat split.
  - intros ->. split; reflexivity.
Qed.

Lemma view_after_success_witness :
  showAnswer (snd (handleSubmit Sample.answering Sample.clk
                     (Sample.typed Sample.twoEntries))) = true
  /\ showPlaceholder (snd (handleSubmit (fun _ => Resolved []) Sample.clk
                             (Sample.typed Sample.twoEntries))) = true.
Proof.
  destruct (view_after_success Sample.answering Sample.clk
              (Sample.typed Sample.twoEntries) (lit "Mocked answer response"))
    as (_ & Hshow & _); [reflexivity|reflexivity|].
  destruct (view_after_success (fun _ => Resolved []) Sample.clk
              (Sample.typed Sample.twoEntries) [])
    as (_ & _ & Hempty); [reflexivity|reflexivity|].
  split; [apply Hshow; discriminate|apply Hempty; reflexivity].
Defined.

(** X24. With the client of [services/api.js], the text shown after a
    submission is empty when the answer arrived and otherwise one of the
    three messages of [toUserFriendlyError]: the invalid-input message
    and the fallback message of the component are never shown. *)
Theorem handleSubmit_error_texts env net clk st :
  canSubmit st = true ->
  let after := snd (handleSubmit (askViaApi env net) clk st) in
  ((exists a, askViaApi env net (trim (question st)) = Resolved a) /\ error after = [])
  \/ ((exists err, askViaApi env net (trim (question st)) = Rejected err)
      /\ (error after = Api.MSG_TIMEOUT \/ error after = Api.MSG_NETWORK
          \/ error after = Api.MSG_GENERIC)).
Proof.
  intros Hcan after. subst after.
  rewrite handleSubmit_run by exact Hcan. cbn [snd].
  apply canSubmit_true in Hcan. destruct Hcan as [Hq _].
  unfold askViaApi. rewrite ApiFacts.askQuestion_string by exact Hq.
  destruct (Api.isMock env).
  - left. split; [eexists; reflexivity|reflexivity].
  - unfold Api.askQuestionReal.
    destruct (Api.tryRequest (Api.API_BASE env) net (trim (question st)))
      as [err|a].
    + right. split; [eexists; reflexivity|]. cbn [submitSettle error].
      destruct (ApiFacts.toUserFriendlyError_cases err) as [-> | [-> | ->]];
        rewrite errorMessage_mkError by (intro H; vm_compute in H; discriminate H);
        tauto.
    + left. split; [eexists; reflexivity|reflexivity].
Qed.

Lemma handleSubmit_error_texts_witness :
  error (snd (handleSubmit (askViaApi Sample.remoteEnv Scenario.offline) Sample.clk
                (Sample.typed Sample.twoEntries)))
  = Api.MSG_NETWORK.
Proof.
  destruct (handleSubmit_error_texts Sample.remoteEnv Scenario.offline Sample.clk
              (Sample.typed Sample.twoEntries)) as [[_ H] | [_ [H | [H | H]]]];
    [reflexivity| | | |].
  - vm_compute in H. discriminate H.
  - vm_compute in H. discriminate H.
  - exact H.
  - vm_compute in H. discriminate H.
Defined.

End FlowSpec.

(* ===================================================================== *)
(** ** The timer and the body of the response *)
(* ===================================================================== *)

Module TimedSpec.
Import Api Timed JSFacts ApiFacts.

Lemma seen_whole a : bodyCut a = false -> seen a = arrived a.
Proof. intros H. unfold seen. now rewrite H. Qed.

Lemma seen_cut a :
  bodyCut a = true ->
  ok (seen a) = ok (arrived a)
  /\ body_json (seen a) = inl abortError
  /\ serverMessage (seen a) = []
  /\ httpErrorMessage (seen a)
     = lit "Request failed: " ++ decimal (status (arrived a)) ++ lit " "
       ++ statusText (arrived a).
Proof.
  intros H. unfold seen. rewrite H.
  assert (Hmsg : forall st tx ct,
             serverMessage {| status := st; statusText := tx; content_type := ct;
                              body_json := inl abortError;
                              body_text := inl abortError |} = []).
  { intros st tx ct. unfold serverMessage. cbn [content_type body_json body_text].
    now destruct (includes _ _). }
  repeat split.
  - apply Hmsg.
  - unfold httpErrorMessage. rewrite Hmsg.
    cbn [status statusText]. rewrite (proj2 (str_eqb_eq [] []) eq_refl).
    rewrite <- !app_assoc. now rewrite app_nil_r.
Qed.

Lemma head_in_time a : head_at a < TIMEOUT_MS -> (TIMEOUT_MS <=? head_at a) = false.
Proof. intros H. now apply N.leb_gt. Qed.

(** The [try] block on a response whose head arrived in time. *)
Lemma tryRequest_arrives base net q a :
  net (buildRequest base q) = Arrives a -> head_at a < TIMEOUT_MS ->
  tryRequest base (fun req => observe (net req)) q = handleResponse (seen a).
Proof.
  intros Hnet Hhead. unfold tryRequest. rewrite Hnet. unfold observe.
  rewrite awaitFetch_in_time; [reflexivity|].
  cbn [timerFires]. now apply head_in_time.
Qed.

(** A response that is not ok and whose body read is cut by the timer:
    the inner [catch] drops the [AbortError] and the rejection is the
    generic one. *)
Lemma error_body_cut env net q a :
  isMock env = false -> q <> [] ->
  net (buildRequest (API_BASE env) q) = Arrives a ->
  head_at a < TIMEOUT_MS -> ok (arrived a) = false -> bodyCut a = true ->
  abortPattern (httpErrorMessage (seen a)) = false ->
  timedOut (net (buildRequest (API_BASE env) q)) = true
  /\ Timed.askQuestion env net (VString q) = Rejected (mkError MSG_GENERIC).
Proof.
  intros Hmode Hq Hnet Hhead Hok Hcut Hpat. split.
  - rewrite Hnet. cbn [timedOut]. rewrite Hcut. apply orb_true_r.
  - unfold Timed.askQuestion. rewrite askQuestion_string by exact Hq. rewrite Hmode.
    unfold Api.askQuestionReal.
    rewrite (tryRequest_arrives _ _ _ _ Hnet Hhead).
    unfold handleResponse. rewrite (proj1 (seen_cut a Hcut)), Hok. cbn [negb].
    now rewrite toUserFriendlyError_plain.
Qed.

(** C6 does not hold of [askQuestionReal]: a 500 response whose body is
    still being read when the timer fires after 30 seconds is aborted,
    yet the request that timed out is rejected with the generic server
    message, not with the "Request timed out" one. *)
Theorem timeout_during_error_body_not_reported :
  timedOut (Scenario.slowErrorBody
              (buildRequest (API_BASE Sample.remoteEnv) (lit "What is AI?"))) = true
  /\ Timed.askQuestion Sample.remoteEnv Scenario.slowErrorBody
                       (VString (lit "What is AI?"))
     = Rejected (mkError MSG_GENERIC)
  /\ MSG_GENERIC <> MSG_TIMEOUT.
Proof.
  split; [reflexivity|]. split.
  - apply (error_body_cut Sample.remoteEnv Scenario.slowErrorBody (lit "What is AI?")
             {| head_at := 1000; body_at := None; arrived := Sample.res500 |}).
    + reflexivity.
    + discriminate.
    + reflexivity.
    + reflexivity.
    + reflexivity.
    + reflexivity.
    + vm_compute. reflexivity.
  - intros H. exact (timeout_neq_generic (eq_sym H)).
Qed.

(** X7. When the exchange is complete before the timer fires, the client
    with the timer resolves to an answer exactly when the earlier client
    does, and to the same answer. When the head of an ok response
    arrives in time but its body only after the timer has fired, the
    client with the timer rejects with the timeout error while the
    earlier client resolves to the answer. *)
Theorem legacy_agrees_on_answers base net q a :
  (timedOut (net (buildRequest base q)) = false ->
   Timed.askQuestionReal base net q = Resolved a
   <-> askQuestionRealUntimed base net q = Some (Resolved a))
  /\ (forall arr t data,
         net (buildRequest base q) = Arrives arr ->
         head_at arr < TIMEOUT_MS ->
         body_at arr = Some t -> TIMEOUT_MS <= t ->
         ok (arrived arr) = true ->
         body_json (arrived arr) = inr data ->
         getProp data (lit "answer") = VString a ->
         Timed.askQuestionReal base net q = Rejected (mkError MSG_TIMEOUT)
         /\ askQuestionRealUntimed base net q = Some (Resolved a)).
Proof.
  split.
  - intros Hout. unfold Timed.askQuestionReal, askQuestionRealUntimed,
      Api.askQuestionReal, tryRequest, ApiLegacy.askQuestionReal, awaitFetch.
    destruct (net (buildRequest base q)) as [arr|t err|]; cbn [observe observeUntimed].
    + cbn [timedOut] in Hout. apply orb_false_iff in Hout. destruct Hout as [Hhead Hcut].
      cbn [timerFires]. rewrite Hhead, (seen_whole arr Hcut).
      unfold bodyCut in Hcut. destruct (body_at arr) as [t|]; [|discriminate Hcut].
      unfold handleResponse, ApiLegacy.handleResponse.
      destruct (ok (arrived arr)); cbn [negb]; [|split; discriminate].
      destruct (body_json (arrived arr)) as [err|data]; [split; discriminate|].
      destruct (truthy data); cbn [negb]; [|split; discriminate].
      destruct (getProp data (lit "answer")); try (split; discriminate).
      split; intros [= <-]; reflexivity.
    + cbn [timedOut] in Hout. cbn [timerFires]. rewrite Hout. split; discriminate.
    + discriminate Hout.
  - intros arr t data Hnet Hhead Hbody Hlate Hok Hjson Hans. split.
    + assert (Hcut : bodyCut arr = true).
      { unfold bodyCut. rewrite Hbody. now apply N.leb_le. }
      unfold Timed.askQuestionReal, Api.askQuestionReal.
      rewrite (tryRequest_arrives _ _ _ _ Hnet Hhead).
      unfold handleResponse.
      destruct (seen_cut arr Hcut) as (-> & -> & _). rewrite Hok. cbn [negb].
      unfold abortError. now rewrite toUserFriendlyError_abort.
    + unfold askQuestionRealUntimed, ApiLegacy.askQuestionReal.
      rewrite Hnet. cbn [observeUntimed]. rewrite Hbody.
      unfold ApiLegacy.handleResponse. rewrite Hok, Hjson. cbn [negb].
      now rewrite (getProp_string_truthy _ _ _ Hans), Hans.
Qed.

Lemma legacy_agrees_on_answers_witness :
  askQuestionRealUntimed (API_BASE Sample.remoteEnv) Scenario.promptAnswer
                         (lit "What is AI?") = Some (Resolved (lit "42"))
  /\ Timed.askQuestionReal (API_BASE Sample.remoteEnv) Scenario.slowAnswerBody
                           (lit "What is AI?") = Rejected (mkError MSG_TIMEOUT)
  /\ askQuestionRealUntimed (API_BASE Sample.remoteEnv) Scenario.slowAnswerBody
                            (lit "What is AI?") = Some (Resolved (lit "42")).
Proof.
  split.
  - destruct (legacy_agrees_on_answers (API_BASE Sample.remoteEnv)
                Scenario.promptAnswer (lit "What is AI?") (lit "42")) as [Hagree _].
    apply Hagree; [reflexivity|]. vm_compute. reflexivity.
  - destruct (legacy_agrees_on_answers (API_BASE Sample.remoteEnv)
                Scenario.slowAnswerBody (lit "What is AI?") (lit "42")) as [_ Hlate].
    apply (Hlate {| head_at := 1000; body_at := Some 40000; arrived := Sample.res200 |}
                 40000 (VObject [(lit "answer", VString (lit "42"))]));
      try reflexivity.
    vm_compute. discriminate.
Defined.

(** X25. In remote mode a request is rejected with the "Request timed out"
    error when the timer fires while [fetch] is still pending, and when
    it fires while the body of an ok response is being read. *)
Theorem timeout_reported env net q :
  isMock env = false -> q <> [] ->
  timerFires (observe (net (buildRequest (API_BASE env) q))) = true
  \/ (exists a,
        net (buildRequest (API_BASE env) q) = Arrives a
        /\ head_at a < TIMEOUT_MS /\ ok (arrived a) = true /\ bodyCut a = true) ->
  Timed.askQuestion env net (VString q) = Rejected (mkError MSG_TIMEOUT).
Proof.
  intros Hmode Hq [Hfire | (a & Hnet & Hhead & Hok & Hcut)].
  - unfold Timed.askQuestion. now apply askQuestion_timed_out.
  - unfold Timed.askQuestion. rewrite askQuestion_string by exact Hq. rewrite Hmode.
    unfold Api.askQuestionReal. rewrite (tryRequest_arrives _ _ _ _ Hnet Hhead).
    unfold handleResponse.
    destruct (seen_cut a Hcut) as (-> & -> & _). rewrite Hok. cbn [negb].
    unfold abortError. now rewrite toUserFriendlyError_abort.
Qed.

Lemma timeout_reported_witness :
  Timed.askQuestion Sample.remoteEnv (fun _ => Silent) (VString (lit "What is AI?"))
  = Rejected (mkError MSG_TIMEOUT)
  /\ Timed.askQuestion Sample.remoteEnv Scenario.slowAnswerBody
                       (VString (lit "What is AI?"))
     = Rejected (mkError MSG_TIMEOUT).
Proof.
  split.
  - apply (timeout_reported Sample.remoteEnv (fun _ => Silent) (lit "What is AI?"));
      [reflexivity|discriminate|]. left. reflexivity.
  - apply (timeout_reported Sample.remoteEnv Scenario.slowAnswerBody (lit "What is AI?"));
      [reflexivity|discriminate|]. right.
    exists {| head_at := 1000; body_at := Some 40000; arrived := Sample.res200 |}.
    repeat split.
Defined.

End TimedSpec.
